(** * AI-enhanced login test automation: a shallow embedding

    Embedding of [practical_implementation/automated_testing.py]
    (class [AILoginTestAutomation]) and the properties of its selector
    generation, element location, outcome classification, scenario
    execution and report generation.

    Modelling conventions.
    - A Python [str] is a [string] (ASCII; [str.lower] maps A-Z to a-z).
    - The Selenium driver, the clock and the page behind it are an
      abstract world [W] with an interface [WebDriver]; every driver call
      returns a value or raises, and may change the world.
    - Python exceptions are values of [exn]; a method is a function from a
      state to an outcome ([exn + A]) and a new state.
    - A Python [float] is an IEEE 754 binary64 number ([spec_float] with
      precision 53 and maximal exponent 1024).
    - [print] is modelled for the statistics lines of the report only. *)

From Stdlib Require Import List String Ascii Bool Arith ZArith Lia.
From Stdlib Require Import Floats.SpecFloat.
From Stdlib Require Import Sorting.Sorted Sorting.Permutation.
Import ListNotations.
Local Open Scope list_scope.
Local Open Scope string_scope.

(** ** Python strings *)

Module Py.

(** The double-quote character, as a one-character string. *)
Definition dq : string := String (ascii_of_nat 34) EmptyString.

(** [c.lower()] on one ASCII character. *)
Definition lower_ascii (c : ascii) : ascii :=
  let n := nat_of_ascii c in
  if Nat.leb 65 n && Nat.leb n 90 then ascii_of_nat (n + 32) else c.

(** [s.lower()]. *)
Fixpoint lower (s : string) : string :=
  match s with
  | EmptyString => EmptyString
  | String c s' => String (lower_ascii c) (lower s')
  end.

(** [sub in s]: substring containment. *)
Fixpoint str_in (sub s : string) : bool :=
  if String.prefix sub s then true
  else match s with
       | EmptyString => false
       | String _ s' => str_in sub s'
       end.

(** [str(n)] for a non-negative integer. *)
Fixpoint digits_fuel (fuel : nat) (n : N) (acc : string) : string :=
  match fuel with
  | O => acc
  | S fuel' =>
      let d := ascii_of_N (48 + N.modulo n 10) in
      let q := N.div n 10 in
      if N.eqb q 0 then String d acc
      else digits_fuel fuel' q (String d acc)
  end.

Definition str_of_N (n : N) : string :=
  digits_fuel (S (N.to_nat (N.log2 n))) n EmptyString.

Definition str_of_nat (n : nat) : string := str_of_N (N.of_nat n).

(** [repr(s)] for an ASCII string: single quotes, unless the string
    holds a single quote and no double quote; the backslash, the quote
    in use and the control characters are escaped. *)
Definition hex_digit (n : nat) : ascii :=
  ascii_of_nat (if Nat.ltb n 10 then 48 + n else 87 + n).

Definition repr_char (quote c : ascii) : string :=
  let n := nat_of_ascii c in
  let backslash := ascii_of_nat 92 in
  if Nat.eqb n 92 then String backslash (String backslash EmptyString)
  else if Ascii.eqb c quote then String backslash (String quote EmptyString)
  else if Nat.eqb n 9 then String backslash "t"
  else if Nat.eqb n 10 then String backslash "n"
  else if Nat.eqb n 13 then String backslash "r"
  else if Nat.ltb n 32 || Nat.eqb n 127
       then String backslash
              (String "x" (String (hex_digit (n / 16)) (String (hex_digit (n mod 16)) EmptyString)))
  else String c EmptyString.

Fixpoint repr_body (quote : ascii) (s : string) : string :=
  match s with
  | EmptyString => EmptyString
  | String c s' => repr_char quote c ++ repr_body quote s'
  end.

Definition repr (s : string) : string :=
  let single := ascii_of_nat 39 in
  let double := ascii_of_nat 34 in
  let quote :=
    if str_in (String single EmptyString) s && negb (str_in (String double EmptyString) s)
    then double else single in
  String quote (repr_body quote s ++ String quote EmptyString).

End Py.

(** ** Selector generation *)

(** [generate_possible_selectors(element_type, attributes)]: the body of
    the [for attr in attributes] loop extends [selectors] by five
    entries. *)
Definition selectors_for (element_type attr : string) : list string :=
  [ "[" ++ attr ++ "*=" ++ Py.dq ++ element_type ++ Py.dq ++ "]";
    "[" ++ attr ++ "=" ++ Py.dq ++ element_type ++ Py.dq ++ "]";
    "input[" ++ attr ++ "*=" ++ Py.dq ++ element_type ++ Py.dq ++ "]";
    "#" ++ element_type;
    "." ++ element_type ].

Definition generate_possible_selectors
    (element_type : string) (attributes : list string) : list string :=
  fold_left
    (fun selectors attr => (selectors ++ selectors_for element_type attr)%list)
    attributes [].

(** The generator as the specification words it: three selectors per
    hint, then the two role-name fallbacks once. *)
Definition spec_selectors_for (role attr : string) : list string :=
  [ "[" ++ attr ++ "*=" ++ Py.dq ++ role ++ Py.dq ++ "]";
    "[" ++ attr ++ "=" ++ Py.dq ++ role ++ Py.dq ++ "]";
    "input[" ++ attr ++ "*=" ++ Py.dq ++ role ++ Py.dq ++ "]" ].

Definition spec_fallbacks (role : string) : list string :=
  [ "#" ++ role; "." ++ role ].

Definition spec_generate (role : string) (hints : list string) : list string :=
  app (flat_map (spec_selectors_for role) hints) (spec_fallbacks role).

(** ** Exceptions and the method monad *)

(** The exception classes the program meets; all derive from
    [Exception].  The Selenium ones carry their rendered text. *)
Inductive exn : Type :=
| TimeoutException (msg : string)
| NoSuchElementException (msg : string)
| WebDriverException (msg : string)
| KeyError (key : string)
| ZeroDivisionError (msg : string)
| PyException (msg : string).

(** [str(e)]. *)
Definition str_exn (e : exn) : string :=
  match e with
  | TimeoutException msg => msg
  | NoSuchElementException msg => msg
  | WebDriverException msg => msg
  | KeyError key => Py.repr key
  | ZeroDivisionError msg => msg
  | PyException msg => msg
  end.

Definition is_timeout (e : exn) : bool :=
  match e with TimeoutException _ => true | _ => false end.

Definition is_no_such_element (e : exn) : bool :=
  match e with NoSuchElementException _ => true | _ => false end.

(** The browser, the page it shows and the clock: what a driver call
    answers in a world, and the world it leaves. *)
Class WebDriver (W E : Type) : Type := {
  drv_get : string -> W -> (exn + unit) * W;
  wait_presence_css : string -> W -> (exn + E) * W;
  find_element_by_id : string -> W -> (exn + E) * W;
  find_element_by_name : string -> W -> (exn + E) * W;
  elem_clear : E -> W -> (exn + unit) * W;
  elem_send_keys : E -> string -> W -> (exn + unit) * W;
  elem_click : E -> W -> (exn + unit) * W;
  drv_current_url : W -> (exn + string) * W;
  drv_page_source : W -> (exn + string) * W;
  time_sleep : nat -> W -> W;
  time_strftime : W -> string
}.

(** The driver calls a method makes, in order. *)
Inductive call (E : Type) : Type :=
| CGet (url : string)
| CWaitCss (selector : string)
| CFindId (value : string)
| CFindName (value : string)
| CClear (e : E)
| CSendKeys (e : E) (text : string)
| CClick (e : E)
| CCurrentUrl
| CPageSource
| CSleep (seconds : nat).

Arguments CGet {E} url.
Arguments CWaitCss {E} selector.
Arguments CFindId {E} value.
Arguments CFindName {E} value.
Arguments CClear {E} e.
Arguments CSendKeys {E} e text.
Arguments CClick {E} e.
Arguments CCurrentUrl {E}.
Arguments CPageSource {E}.
Arguments CSleep {E} seconds.

(** One entry of [self.results]; the key [error] is present on error
    results only. *)
Record test_result : Type := mk_result {
  r_test_case : string;
  r_username : string;
  r_expected : string;
  r_actual : string;
  r_status : string;
  r_error : option string;
  r_timestamp : string
}.

(** A test case of [test_login_scenarios]. *)
Record test_case : Type := mk_case {
  tc_name : string;
  tc_username : string;
  tc_password : string;
  tc_expected_result : string
}.

(** The state of an [AILoginTestAutomation] object: the driver's world,
    [self.results], the driver calls made so far and the printed
    statistics lines. *)
Record state (W E : Type) : Type := mk_state {
  world : W;
  results : list test_result;
  trace : list (call E);
  stdout : list string
}.

Arguments mk_state {W E} world results trace stdout.
Arguments world {W E} s.
Arguments results {W E} s.
Arguments trace {W E} s.
Arguments stdout {W E} s.

Section Methods.

Context {W E : Type} {drv : WebDriver W E}.

(** A method: from a state to a raised exception or a value, and the
    state it leaves. *)
Definition M (A : Type) : Type := state W E -> (exn + A) * state W E.

Definition ret {A} (a : A) : M A := fun st => (inr a, st).

Definition raise {A} (e : exn) : M A := fun st => (inl e, st).

Definition bind {A B} (m : M A) (k : A -> M B) : M B :=
  fun st =>
    match m st with
    | (inl e, st') => (inl e, st')
    | (inr a, st') => k a st'
    end.

(** [try: m  except C: h] where [C] is the class recognised by [catches];
    other exceptions pass through. *)
Definition try_except {A} (catches : exn -> bool) (m : M A) (h : exn -> M A) : M A :=
  fun st =>
    match m st with
    | (inl e, st') => if catches e then h e st' else (inl e, st')
    | (inr a, st') => (inr a, st')
    end.

(** [except Exception]: every class of [exn]. *)
Definition is_exception (e : exn) : bool := true.

(** A driver call, recorded in the trace. *)
Definition driver_call {A} (c : call E) (op : W -> (exn + A) * W) : M A :=
  fun st =>
    let (r, w') := op (world st) in
    (r, mk_state w' (results st) (trace st ++ [c])%list (stdout st)).

End Methods.

Arguments M : clear implicits.

Notation "x <- m ;; k" := (bind m (fun x => k))
  (at level 100, m at next level, right associativity).
Notation "m ;;; k" := (bind m (fun _ => k))
  (at level 100, right associativity).

(** ** Element location *)

Section Location.

Context {W E : Type} {drv : WebDriver W E}.

(** The [for selector in possible_selectors] loop of
    [find_element_with_ai]: [Some element] when the loop returns from
    inside, [None] when it runs to its end. *)
Fixpoint try_selectors (possible_selectors : list string) : M W E (option E) :=
  match possible_selectors with
  | [] => ret None
  | selector :: rest =>
      try_except is_timeout
        (element <- driver_call (CWaitCss selector) (wait_presence_css selector) ;;
         ret (Some element))
        (fun _ => try_selectors rest)
  end.

(** The direct lookups after the loop. *)
Definition fallback_lookup (element_type : string) : M W E E :=
  try_except is_no_such_element
    (driver_call (CFindId element_type) (find_element_by_id element_type))
    (fun _ =>
       try_except is_no_such_element
         (driver_call (CFindName element_type) (find_element_by_name element_type))
         (fun _ =>
            raise (PyException ("Could not locate " ++ element_type ++ " element")))).

Definition find_element_with_ai
    (element_type : string) (attributes : list string) : M W E E :=
  let possible_selectors := generate_possible_selectors element_type attributes in
  found <- try_selectors possible_selectors ;;
  match found with
  | Some element => ret element
  | None => fallback_lookup element_type
  end.

End Location.

(** ** Outcome classification *)

Definition success_indicators : list string :=
  ["dashboard"; "welcome"; "success"; "home"].

Definition failure_indicators : list string :=
  ["error"; "invalid"; "failure"; "login"].

(** [for indicator in indicators: if indicator in current_url.lower() or
    indicator in page_source: return ...] reaches its [return]. *)
Definition indicator_found
    (indicators : list string) (current_url page_source : string) : bool :=
  existsb
    (fun indicator =>
       Py.str_in indicator (Py.lower current_url) || Py.str_in indicator page_source)
    indicators.

(** [determine_login_result] once [current_url] and the raw page source
    are read. *)
Definition login_result (current_url raw_page_source : string) : string :=
  let page_source := Py.lower raw_page_source in
  if indicator_found success_indicators current_url page_source then "success"
  else if indicator_found failure_indicators current_url page_source then "failure"
  else "failure".

(** The classifier as the specification words it, over keyword sets
    given by the caller. *)
Inductive outcome : Type := Success | Failure.

Definition outcome_str (o : outcome) : string :=
  match o with Success => "success" | Failure => "failure" end.

Definition spec_classify
    (currentUrl pageContent : string) (successKeywords failureKeywords : list string)
    : outcome :=
  let u := Py.lower currentUrl in
  let c := Py.lower pageContent in
  if existsb (fun k => Py.str_in k u || Py.str_in k c) successKeywords then Success
  else if existsb (fun k => Py.str_in k u || Py.str_in k c) failureKeywords then Failure
  else Failure.

Section Scenario.

Context {W E : Type} {drv : WebDriver W E}.

Definition determine_login_result : M W E string :=
  current_url <- driver_call CCurrentUrl drv_current_url ;;
  raw_page_source <- driver_call CPageSource drv_page_source ;;
  ret (login_result current_url raw_page_source).

Definition sleep (seconds : nat) : M W E unit :=
  driver_call (CSleep seconds) (fun w => (inr tt, time_sleep seconds w)).

Definition strftime : M W E string :=
  fun st => (inr (time_strftime (world st)), st).

(** The [try] block of [execute_login_test]. *)
Definition login_test_body (tc : test_case) : M W E test_result :=
  driver_call (CGet "https://example.com/login") (drv_get "https://example.com/login") ;;;
  username_field <- find_element_with_ai "username" ["id"; "name"; "placeholder"] ;;
  password_field <- find_element_with_ai "password" ["id"; "name"; "type"] ;;
  login_button <- find_element_with_ai "login" ["id"; "class"; "value"] ;;
  driver_call (CClear username_field) (elem_clear username_field) ;;;
  driver_call (CSendKeys username_field (tc_username tc))
    (elem_send_keys username_field (tc_username tc)) ;;;
  driver_call (CClear password_field) (elem_clear password_field) ;;;
  driver_call (CSendKeys password_field (tc_password tc))
    (elem_send_keys password_field (tc_password tc)) ;;;
  driver_call (CClick login_button) (elem_click login_button) ;;;
  sleep 2 ;;;
  actual_result <- determine_login_result ;;
  timestamp <- strftime ;;
  ret (mk_result (tc_name tc) (tc_username tc) (tc_expected_result tc) actual_result
         (if String.eqb actual_result (tc_expected_result tc) then "PASS" else "FAIL")
         None timestamp).

(** The [except Exception as e] block. *)
Definition login_test_handler (tc : test_case) (e : exn) : M W E test_result :=
  timestamp <- strftime ;;
  ret (mk_result (tc_name tc) (tc_username tc) (tc_expected_result tc) "error"
         "ERROR" (Some (str_exn e)) timestamp).

Definition execute_login_test (tc : test_case) : M W E test_result :=
  try_except is_exception (login_test_body tc) (login_test_handler tc).

End Scenario.

(** ** Floats *)

Module Float.

(** [float(z)], exact for an integer below 2^53 in absolute value. *)
Definition of_Z (z : Z) : spec_float := binary_normalize 53 1024 z 0 false.

Definition div : spec_float -> spec_float -> spec_float := SFdiv 53 1024.

Definition mul : spec_float -> spec_float -> spec_float := SFmul 53 1024.

(** The integer nearest to [10 * m * 2^e], ties to even. *)
Definition round_tenths (m : positive) (e : Z) : N :=
  match e with
  | Zneg p =>
      let d := N.pow 2 (Npos p) in
      let q := N.div (10 * Npos m) d in
      let r := N.modulo (10 * Npos m) d in
      match N.compare (2 * r) d with
      | Lt => q
      | Gt => q + 1
      | Eq => if N.even q then q else q + 1
      end
  | _ => (10 * Npos m * N.pow 2 (Z.to_N e))%N
  end.

(** [f'{x:.1f}']. *)
Definition format_1f (x : spec_float) : string :=
  match x with
  | S754_zero s => (if s then "-" else "") ++ "0.0"
  | S754_infinity s => if s then "-inf" else "inf"
  | S754_nan => "nan"
  | S754_finite s m e =>
      let n := round_tenths m e in
      (if s then "-" else "") ++ Py.str_of_N (N.div n 10) ++ "."
        ++ Py.str_of_N (N.modulo n 10)
  end.

End Float.

(** ** Report generation *)

(** [df['status']] on [df = pd.DataFrame(results)]: the frame of an
    empty list has no column, and every result has the key [status]. *)
Definition df_status (df : list test_result) : exn + list string :=
  match df with
  | [] => inl (KeyError "status")
  | _ => inr (map r_status df)
  end.

(** [len(df[df['status'] == value])]. *)
Definition count_status (df : list test_result) (value : string) : exn + nat :=
  match df_status df with
  | inl e => inl e
  | inr column => inr (List.length (filter (String.eqb value) column))
  end.

(** [a / b] on integers. *)
Definition true_div (a b : nat) : exn + spec_float :=
  match b with
  | O => inl (ZeroDivisionError "division by zero")
  | _ => inr (Float.div (Float.of_Z (Z.of_nat a)) (Float.of_Z (Z.of_nat b)))
  end.

(** The locals of [generate_test_report]. *)
Record report : Type := mk_report {
  total_tests : nat;
  passed_tests : nat;
  failed_tests : nat;
  error_tests : nat;
  success_rate : spec_float
}.

Definition compute_report (results : list test_result) : exn + report :=
  let df := results in
  let total_tests := List.length df in
  match count_status df "PASS" with
  | inl e => inl e
  | inr passed_tests =>
  match count_status df "FAIL" with
  | inl e => inl e
  | inr failed_tests =>
  match count_status df "ERROR" with
  | inl e => inl e
  | inr error_tests =>
  match true_div passed_tests total_tests with
  | inl e => inl e
  | inr ratio =>
      inr (mk_report total_tests passed_tests failed_tests error_tests
             (Float.mul ratio (Float.of_Z 100)))
  end end end end.

(** The statistics lines printed by [generate_test_report]. *)
Definition report_lines (r : report) : list string :=
  [ "Total Tests: " ++ Py.str_of_nat (total_tests r);
    "Passed: " ++ Py.str_of_nat (passed_tests r);
    "Failed: " ++ Py.str_of_nat (failed_tests r);
    "Errors: " ++ Py.str_of_nat (error_tests r);
    "Success Rate: " ++ Float.format_1f (success_rate r) ++ "%" ].

Section Batch.

Context {W E : Type} {drv : WebDriver W E}.

Definition generate_test_report : M W E unit :=
  fun st =>
    match compute_report (results st) with
    | inl e => (inl e, st)
    | inr r =>
        (inr tt,
         mk_state (world st) (results st) (trace st) (stdout st ++ report_lines r)%list)
    end.

(** [self.results.append(result)]. *)
Definition results_append (result : test_result) : M W E unit :=
  fun st =>
    (inr tt, mk_state (world st) (results st ++ [result])%list (trace st) (stdout st)).

(** The [for test_case in test_cases] loop of [test_login_scenarios]. *)
Fixpoint run_test_cases (cases : list test_case) : M W E unit :=
  match cases with
  | [] => ret tt
  | tc :: rest =>
      result <- execute_login_test tc ;;
      results_append result ;;;
      run_test_cases rest
  end.

Definition test_cases : list test_case :=
  [ mk_case "Valid Credentials" "testuser" "correctpassword" "success";
    mk_case "Invalid Username" "wronguser" "correctpassword" "failure";
    mk_case "Invalid Password" "testuser" "wrongpassword" "failure";
    mk_case "Empty Credentials" "" "" "failure" ].

Definition test_login_scenarios : M W E unit :=
  run_test_cases test_cases ;;;
  generate_test_report.

End Batch.

(** ** A stub login page

    A small concrete driver: a page with three controls that can be
    reached through configurable selectors, ids and names, and a login
    form that accepts one pair of credentials. *)

Module Stub.

Inductive field : Type := UserField | PassField | LoginButton.

Record page : Type := mk_page {
  online : bool;
  css : list (string * field);
  ids : list (string * field);
  names : list (string * field);
  url : string;
  source : string;
  user_text : string;
  pass_text : string;
  clock : nat
}.

Fixpoint assoc (key : string) (l : list (string * field)) : option field :=
  match l with
  | [] => None
  | (k, v) :: l' => if String.eqb key k then Some v else assoc key l'
  end.

Definition load (u : string) (w : page) : page :=
  mk_page (online w) (css w) (ids w) (names w) u "<form>Sign in</form>" "" ""
    (clock w).

Definition tick (n : nat) (w : page) : page :=
  mk_page (online w) (css w) (ids w) (names w) (url w) (source w) (user_text w)
    (pass_text w) (clock w + n).

Definition set_text (f : field) (text : string) (w : page) : page :=
  match f with
  | UserField =>
      mk_page (online w) (css w) (ids w) (names w) (url w) (source w) text
        (pass_text w) (clock w)
  | PassField =>
      mk_page (online w) (css w) (ids w) (names w) (url w) (source w)
        (user_text w) text (clock w)
  | LoginButton => w
  end.

Definition get_text (f : field) (w : page) : string :=
  match f with
  | UserField => user_text w
  | PassField => pass_text w
  | LoginButton => ""
  end.

Definition submit (w : page) : page :=
  if String.eqb (user_text w) "testuser" && String.eqb (pass_text w) "correctpassword"
  then mk_page (online w) (css w) (ids w) (names w) "https://example.com/dashboard"
         "<h1>Welcome back</h1>" "" "" (clock w)
  else mk_page (online w) (css w) (ids w) (names w) (url w)
         "<p>Invalid username or password</p>" (user_text w) (pass_text w) (clock w).

#[global] Instance driver : WebDriver page field := {|
  drv_get u w :=
    if online w then (inr tt, load u w)
    else (inl (WebDriverException "Message: unknown error: net::ERR_CONNECTION_REFUSED"), w);
  wait_presence_css sel w :=
    match assoc sel (css w) with
    | Some f => (inr f, w)
    | None => (inl (TimeoutException "Message: "), tick 10 w)
    end;
  find_element_by_id v w :=
    match assoc v (ids w) with
    | Some f => (inr f, w)
    | None => (inl (NoSuchElementException "Message: no such element"), w)
    end;
  find_element_by_name v w :=
    match assoc v (names w) with
    | Some f => (inr f, w)
    | None => (inl (NoSuchElementException "Message: no such element"), w)
    end;
  elem_clear f w := (inr tt, set_text f "" w);
  elem_send_keys f text w := (inr tt, set_text f (get_text f w ++ text) w);
  elem_click f w :=
    match f with
    | LoginButton => (inr tt, submit w)
    | _ => (inr tt, w)
    end;
  drv_current_url w := (inr (url w), w);
  drv_page_source w := (inr (source w), w);
  time_sleep n w := tick n w;
  time_strftime w := "t+" ++ Py.str_of_nat (clock w)
|}.

(** A page whose controls answer to their ids. *)
Definition login_page : page :=
  mk_page true
    [ ("[id*=" ++ Py.dq ++ "username" ++ Py.dq ++ "]", UserField);
      ("[name=" ++ Py.dq ++ "password" ++ Py.dq ++ "]", PassField);
      (".login", LoginButton) ]
    [] [] "about:blank" "" "" "" 0.

(** A page that no generated selector matches; the controls are
    reachable by the [name] attribute only. *)
Definition bare_page : page :=
  mk_page true []
    []
    [ ("username", UserField); ("password", PassField); ("login", LoginButton) ]
    "about:blank" "" "" "" 0.

(** A page with no control at all, and a browser that cannot navigate. *)
Definition empty_page : page :=
  mk_page true [] [] [] "about:blank" "" "" "" 0.

Definition offline_page : page :=
  mk_page false [] [] [] "about:blank" "" "" "" 0.

Definition fresh (w : page) : state page field := mk_state w [] [] [].

End Stub.

(** ** Vocabulary of the properties *)

(** [sub] occurs in [s]. *)
Definition occurs_in (sub s : string) : Prop :=
  exists pre post, s = pre ++ sub ++ post.

(** Some keyword of [keywords] occurs in the lowercased URL or in the
    lowercased page content. *)
Definition keyword_occurs (keywords : list string) (current_url content : string) : Prop :=
  exists k, In k keywords
            /\ (occurs_in k (Py.lower current_url) \/ occurs_in k (Py.lower content)).

(** The number of results whose status is [value]. *)
Definition with_status (value : string) (rs : list test_result) : nat :=
  List.length (filter (fun r => String.eqb value (r_status r)) rs).

Section Vocabulary.

Context {W E : Type} {drv : WebDriver W E}.

(** Every selector of the list, probed in order, times out; the world
    the probes leave. *)
Fixpoint all_time_out (selectors : list string) (w : W) : option W :=
  match selectors with
  | [] => Some w
  | selector :: rest =>
      match wait_presence_css selector w with
      | (inl (TimeoutException _), w') => all_time_out rest w'
      | _ => None
      end
  end.

(** How many of the driver calls [calls] probe the CSS selector
    [selector]. *)
Definition css_probes (selector : string) (calls : list (call E)) : nat :=
  List.length
    (filter
       (fun c => match c with
                 | CWaitCss s => String.eqb s selector
                 | _ => false
                 end)
       calls).

(** The state after the driver calls [calls] were added and the world
    became [w]. *)
Definition advanced (st : state W E) (w : W) (calls : list (call E)) : state W E :=
  mk_state w (results st) (trace st ++ calls)%list (stdout st).

(** A method that leaves [self.results] and the printed lines alone. *)
Definition frames {A} (m : M W E A) : Prop :=
  forall st, results (snd (m st)) = results st /\ stdout (snd (m st)) = stdout st.

(** The [try] block raised. *)
Definition scenario_raised (tc : test_case) (st : state W E) : Prop :=
  exists e st', login_test_body tc st = (inl e, st').

(** The scenarios [cases] are executed one after the other from the
    state [st], each by [execute_login_test] in the state the one before
    left, its result added to [self.results]; [rs] are their results in
    order and [st'] is the state after the last. *)
Inductive scenarios_run
    : list test_case -> state W E -> list test_result -> state W E -> Prop :=
| scenarios_run_nil (st : state W E) : scenarios_run [] st [] st
| scenarios_run_cons (tc : test_case) (rest : list test_case) (st st1 st2 : state W E)
    (res : test_result) (rs : list test_result) :
    execute_login_test tc st = (inr res, st1) ->
    scenarios_run rest
      (mk_state (world st1) (results st1 ++ [res])%list (trace st1) (stdout st1)) rs st2 ->
    scenarios_run (tc :: rest) st (res :: rs) st2.

End Vocabulary.

(** ** Vocabulary of the further properties *)

Section CallVocabulary.

Context {W E : Type} {drv : WebDriver W E}.

(** A driver call that looks for an element. *)
Definition is_location (c : call E) : bool :=
  match c with
  | CWaitCss _ | CFindId _ | CFindName _ => true
  | _ => false
  end.

(** The driver calls of a scenario once its three controls are resolved,
    in program order. *)
Definition interaction_script
    (tc : test_case) (username_field password_field login_button : E) : list (call E) :=
  [ CClear username_field;
    CSendKeys username_field (tc_username tc);
    CClear password_field;
    CSendKeys password_field (tc_password tc);
    CClick login_button;
    CSleep 2;
    CCurrentUrl;
    CPageSource ].

(** The [try] block of [execute_login_test] from the first [clear] on. *)
Definition interaction_part
    (tc : test_case) (username_field password_field login_button : E)
    : M W E test_result :=
  driver_call (CClear username_field) (elem_clear username_field) ;;;
  driver_call (CSendKeys username_field (tc_username tc))
    (elem_send_keys username_field (tc_username tc)) ;;;
  driver_call (CClear password_field) (elem_clear password_field) ;;;
  driver_call (CSendKeys password_field (tc_password tc))
    (elem_send_keys password_field (tc_password tc)) ;;;
  driver_call (CClick login_button) (elem_click login_button) ;;;
  sleep 2 ;;;
  actual_result <- determine_login_result ;;
  timestamp <- strftime ;;
  ret (mk_result (tc_name tc) (tc_username tc) (tc_expected_result tc) actual_result
         (if String.eqb actual_result (tc_expected_result tc) then "PASS" else "FAIL")
         None timestamp).

(** From the state [st], the navigation succeeds and the three look-ups
    of [execute_login_test] return the elements [u], [p] and [b], leaving
    the state [s3]. *)
Definition controls_resolved (st : state W E) (u p b : E) (s3 : state W E) : Prop :=
  exists s0 s1 s2,
    driver_call (CGet "https://example.com/login") (drv_get "https://example.com/login") st
    = (inr tt, s0)
    /\ find_element_with_ai "username" ["id"; "name"; "placeholder"] s0 = (inr u, s1)
    /\ find_element_with_ai "password" ["id"; "name"; "type"] s1 = (inr p, s2)
    /\ find_element_with_ai "login" ["id"; "class"; "value"] s2 = (inr b, s3).

(** The status is one the program writes. *)
Definition program_status (r : test_result) : Prop :=
  In (r_status r) ["PASS"; "FAIL"; "ERROR"].

End CallVocabulary.

(** ** A browser that stops answering

    A second concrete driver: it finds no element, and after a given
    number of calls every call fails with a WebDriverException. *)

Module Flaky.

Definition crash : exn := WebDriverException "Message: chrome not reachable".

Definition answer {A} (healthy : exn + A) (w : nat) : (exn + A) * nat :=
  match w with
  | O => (inl crash, O)
  | S w' => (healthy, w')
  end.

#[global] Instance driver : WebDriver nat unit := {|
  drv_get _ := answer (inr tt);
  wait_presence_css _ := answer (inl (TimeoutException "Message: "));
  find_element_by_id _ := answer (inl (NoSuchElementException "Message: no such element"));
  find_element_by_name _ := answer (inl (NoSuchElementException "Message: no such element"));
  elem_clear _ := answer (inr tt);
  elem_send_keys _ _ := answer (inr tt);
  elem_click _ := answer (inr tt);
  drv_current_url := answer (inr "about:blank");
  drv_page_source := answer (inr "");
  time_sleep _ w := w;
  time_strftime _ := "now"
|}.

Definition fresh (w : nat) : state nat unit := mk_state w [] [] [].

End Flaky.

(** ** Printing a result, and the life of the browser *)

(** The two status icons, as the bytes of their UTF-8 encoding. *)
Definition check_mark : string :=
  String (ascii_of_nat 226) (String (ascii_of_nat 156) (String (ascii_of_nat 133) "")).

Definition cross_mark : string :=
  String (ascii_of_nat 226) (String (ascii_of_nat 157) (String (ascii_of_nat 140) "")).

(** The lines printed by [print_test_result]. *)
Definition print_test_result_lines (result : test_result) : list string :=
  let status_icon :=
    if String.eqb (r_status result) "PASS" then check_mark else cross_mark in
  app
    [ status_icon ++ " " ++ r_test_case result ++ ": " ++ r_status result;
      "   Expected: " ++ r_expected result ++ ", Actual: " ++ r_actual result ]
    match r_error result with
    | Some error => [ "   Error: " ++ error ]
    | None => []
    end.

(** What starts and stops a browser, beside the calls of [WebDriver]:
    [webdriver.Chrome(options=options)] and [driver.quit()]. *)
Class Browser (W : Type) : Type := {
  chrome_start : W -> (exn + unit) * W;
  drv_quit : W -> (exn + unit) * W
}.

Inductive session_call : Type := CStart | CQuit.

(** A run of [main]: the object once it is built, whether [self.driver]
    is set, and the starts and quits so far. *)
Record session (W E : Type) : Type := mk_session {
  obj : state W E;
  has_driver : bool;
  session_calls : list session_call
}.

Arguments mk_session {W E} obj has_driver session_calls.
Arguments obj {W E} s.
Arguments has_driver {W E} s.
Arguments session_calls {W E} s.

Section Main.

Context {W E : Type} {drv : WebDriver W E} {browser : Browser W}.

Definition print_test_result (result : test_result) : M W E unit :=
  fun st =>
    (inr tt,
     mk_state (world st) (results st) (trace st)
       (stdout st ++ print_test_result_lines result)%list).

(** [AILoginTestAutomation()]: [__init__] with its [setup_driver]. *)
Definition init (w : W) : (exn + unit) * session W E :=
  match chrome_start w with
  | (inl e, w') => (inl e, mk_session (mk_state w' [] [] []) false [CStart])
  | (inr _, w') => (inr tt, mk_session (mk_state w' [] [] []) true [CStart])
  end.

(** [close]. *)
Definition close (s : session W E) : (exn + unit) * session W E :=
  if has_driver s then
    match drv_quit (world (obj s)) with
    | (r, w') =>
        (r,
         mk_session (mk_state w' (results (obj s)) (trace (obj s)) (stdout (obj s)))
           true (session_calls s ++ [CQuit])%list)
    end
  else (inr tt, s).

(** [main]: the object is built outside the [try]; [close] runs in the
    [finally], and what it raises replaces the outcome of the [try]. *)
Definition main (w : W) : (exn + unit) * session W E :=
  match init w with
  | (inl e, s) => (inl e, s)
  | (inr _, s) =>
      match test_login_scenarios (obj s) with
      | (r, st1) =>
          match close (mk_session st1 (has_driver s) (session_calls s)) with
          | (inl e, s2) => (inl e, s2)
          | (inr _, s2) => (r, s2)
          end
      end
  end.

End Main.

(** A browser for the stub page, which always starts and quits, and one
    for the browser that stops answering. *)
#[global] Instance stub_browser : Browser Stub.page := {|
  chrome_start w := (inr tt, w);
  drv_quit w := (inr tt, w)
|}.

#[global] Instance flaky_browser : Browser nat := {|
  chrome_start := Flaky.answer (inr tt);
  drv_quit := Flaky.answer (inr tt)
|}.

(** ** Sorting dictionaries

    Embedding of [practical_implementation/ai_code_completion.py] (class
    [CodeCompletionAnalysis]).  A record is a dictionary whose values are
    integers or strings, as [generate_sample_data] builds them.  The
    built-in [sorted] and [list.sort] compute every key first, in list
    order, then sort with [<] on the keys; the sort is stable, and since
    it compares every element with another one, it raises a TypeError
    exactly when the list holds both an integer key and a string key. *)

Module CodeCompletion.

Inductive value : Type :=
| VInt (z : Z)
| VStr (s : string).

(** A dictionary, as its items in insertion order. *)
Definition record : Type := list (string * value).

Inductive error : Type :=
| KeyError (key : string)
| TypeError.

(** [x[key]]. *)
Fixpoint getitem (x : record) (key : string) : error + value :=
  match x with
  | [] => inl (KeyError key)
  | (k, v) :: x' => if String.eqb k key then inr v else getitem x' key
  end.

(** [x.get(key, default)]. *)
Definition get (x : record) (key : string) (default : value) : value :=
  match getitem x key with
  | inr v => v
  | inl _ => default
  end.

(** [a < b] and [a > b]. *)
Definition lt (a b : value) : error + bool :=
  match a, b with
  | VInt x, VInt y => inr (Z.ltb x y)
  | VStr x, VStr y => inr (String.ltb x y)
  | _, _ => inl TypeError
  end.

Definition gt (a b : value) : error + bool := lt b a.

(** [a < b] on keys that can be compared. *)
Definition ltb (a b : value) : bool :=
  match lt a b with
  | inr r => r
  | inl _ => false
  end.

Definition is_int (v : value) : bool :=
  match v with VInt _ => true | VStr _ => false end.

(** No two of the keys are of different types. *)
Definition comparable (keys : list value) : bool :=
  match keys with
  | [] => true
  | k :: rest => forallb (fun k' => Bool.eqb (is_int k) (is_int k')) rest
  end.

(** The keys of the items, computed in list order; the first key that
    raises ends the computation. *)
Fixpoint keyed (f : record -> error + value) (data : list record)
    : error + list (value * record) :=
  match data with
  | [] => inr []
  | x :: rest =>
      match f x with
      | inl e => inl e
      | inr k =>
          match keyed f rest with
          | inl e => inl e
          | inr ks => inr ((k, x) :: ks)
          end
      end
  end.

(** Stable insertion: [x], which came before the items of [l], goes in
    front of the first item whose key is not smaller. *)
Fixpoint insert (x : value * record) (l : list (value * record))
    : list (value * record) :=
  match l with
  | [] => [x]
  | y :: l' => if ltb (fst y) (fst x) then y :: insert x l' else x :: y :: l'
  end.

Definition stable_sort (l : list (value * record)) : list (value * record) :=
  fold_right insert [] l.

(** [sorted(data, key=f)]. *)
Definition sorted (data : list record) (f : record -> error + value)
    : error + list record :=
  match keyed f data with
  | inl e => inl e
  | inr ks =>
      if comparable (map fst ks) then inr (map snd (stable_sort ks))
      else inl TypeError
  end.

Definition manual_sort_dictionaries (data : list record) (key : string)
    : error + list record :=
  sorted data (fun x => getitem x key).

Definition ai_suggested_sort_dictionaries (data : list record) (key : string)
    : error + list record :=
  let sorted_data := fold_left (fun sorted_data item => (sorted_data ++ [item])%list) data [] in
  let get_sort_key := fun item => inr (get item key (VInt 0)) in
  sorted sorted_data get_sort_key.

Definition optimized_sort_dictionaries (data : list record) (key : string)
    : error + list record :=
  sorted data (fun x => inr (get x key (VInt 0))).

(** [verify_sorted]: the loop over [range(len(data) - 1)]. *)
Fixpoint verify_sorted (data : list record) (key : string) : error + bool :=
  match data with
  | a :: (b :: _) as rest =>
      match getitem a key with
      | inl e => inl e
      | inr ka =>
          match getitem b key with
          | inl e => inl e
          | inr kb =>
              match gt ka kb with
              | inl e => inl e
              | inr true => inr false
              | inr false => verify_sorted rest key
              end
          end
      end
  | _ => inr true
  end.

(** The module [random], as a source of answers. *)
Class Random (R : Type) : Type := {
  randint : Z -> Z -> R -> Z * R;
  choice : list string -> R -> string * R
}.

Section SampleData.

Context {R : Type} {rnd : Random R}.

(** One item of the list comprehension of [generate_sample_data]. *)
Definition sample_record (i : nat) (r : R) : record * R :=
  let (age, r1) := randint 18 65 r in
  let (salary, r2) := randint 30000 150000 r1 in
  let (department, r3) := choice ["engineering"; "marketing"; "sales"; "hr"] r2 in
  ([ ("name", VStr ("user_" ++ Py.str_of_nat i));
     ("age", VInt age);
     ("salary", VInt salary);
     ("department", VStr department) ],
   r3).

(** The items for [i] in [start, start + count). *)
Fixpoint sample_records (start count : nat) (r : R) : list record * R :=
  match count with
  | O => ([], r)
  | S count' =>
      let (x, r1) := sample_record start r in
      let (rest, r2) := sample_records (S start) count' r1 in
      (x :: rest, r2)
  end.

(** [generate_sample_data(n)]; [range(n)] is empty for a negative [n]. *)
Definition generate_sample_data (n : Z) (r : R) : list record * R :=
  sample_records 0 (Z.to_nat n) r.

End SampleData.

(** The record has the key. *)
Definition has_key (key : string) (x : record) : Prop :=
  exists v, getitem x key = inr v.

(** The key of the record is an integer. *)
Definition int_key (key : string) (x : record) : Prop :=
  exists z, getitem x key = inr (VInt z).

Definition str_key (key : string) (x : record) : Prop :=
  exists s, getitem x key = inr (VStr s).

(** Every record has the key, with integers throughout or strings
    throughout. *)
Definition homogeneous (key : string) (data : list record) : Prop :=
  Forall (int_key key) data \/ Forall (str_key key) data.

(** The keys of neighbours are in order: every record has the key, and
    the key of a record is not greater than that of the next. *)
Fixpoint in_order (key : string) (data : list record) : Prop :=
  match data with
  | a :: (b :: _) as rest =>
      (exists ka kb,
          getitem a key = inr ka /\ getitem b key = inr kb /\ gt ka kb = inr false)
      /\ in_order key rest
  | _ => True
  end.

(** The order of the sort on items with their keys. *)
Definition key_le (a b : value * record) : Prop := ltb (fst b) (fst a) = false.

(** What [generate_sample_data] puts in a record. *)
Definition sample_shape (x : record) : Prop :=
  exists name age salary department,
    x = [ ("name", VStr name); ("age", VInt age); ("salary", VInt salary);
          ("department", VStr department) ].

Definition value_eqb (a b : value) : bool :=
  match a, b with
  | VInt x, VInt y => Z.eqb x y
  | VStr x, VStr y => String.eqb x y
  | _, _ => false
  end.

(** The records whose key is [v], in the order of the list. *)
Definition with_key (key : string) (v : value) (data : list record) : list record :=
  filter (fun x => match getitem x key with
                   | inr k => value_eqb k v
                   | inl _ => false
                   end) data.

(** A source of answers that counts. *)
#[global] Instance counter : Random nat := {|
  randint lo hi r := ((lo + Z.of_nat (37 * r) mod (hi - lo + 1))%Z, S r);
  choice l r := (nth (r mod List.length l) l "", S r)
|}.

(** Three records; the third has no salary. *)
Definition alice : record := [("name", VStr "alice"); ("salary", VInt 52000)].
Definition bob : record := [("name", VStr "bob"); ("salary", VInt 48000)].
Definition carol : record := [("name", VStr "carol")].

End CodeCompletion.

(** * Properties *)

(** ** Strings *)

Lemma prefix_iff (s1 s2 : string) :
  String.prefix s1 s2 = true <-> exists post, s2 = s1 ++ post.
Proof.
  revert s2; induction s1 as [|a s1 IH]; intros s2; simpl.
  - destruct s2; simpl; split; eauto.
  - destruct s2 as [|b s2]; simpl.
    + split; [discriminate | intros [post H]; discriminate].
    + destruct (ascii_dec a b) as [->|Hne].
      * rewrite IH. split; intros [post H]; exists post; congruence.
      * split; [discriminate | intros [post H]; congruence].
Qed.

Lemma str_in_cons (sub : string) (c : ascii) (s : string) :
  Py.str_in sub (String c s)
  = if String.prefix sub (String c s) then true else Py.str_in sub s.
Proof. reflexivity. Qed.

Lemma str_in_nil (sub : string) : Py.str_in sub "" = String.prefix sub "".
Proof. destruct sub; reflexivity. Qed.

Lemma str_in_iff (sub s : string) :
  Py.str_in sub s = true <-> occurs_in sub s.
Proof.
  unfold occurs_in.
  induction s as [|c s IH].
  - rewrite str_in_nil, prefix_iff. split.
    + intros [post H]. exists "", post. exact H.
    + intros [pre [post H]]. destruct pre; [|discriminate]. exists post. exact H.
  - rewrite str_in_cons.
    destruct (String.prefix sub (String c s)) eqn:Hp.
    + apply prefix_iff in Hp. destruct Hp as [post Hp].
      split; [intros _; exists "", post; exact Hp | reflexivity].
    + rewrite IH. split.
      * intros [pre [post H]]. exists (String c pre), post.
        change (String c s = String c (pre ++ sub ++ post)). congruence.
      * intros [pre [post H]]. destruct pre as [|c' pre].
        -- assert (String.prefix sub (String c s) = true)
             by (apply prefix_iff; exists post; exact H).
           congruence.
        -- exists pre, post.
           change (String c s = String c' (pre ++ sub ++ post)) in H. congruence.
Qed.

Lemma lower_ascii_idem (c : ascii) :
  Py.lower_ascii (Py.lower_ascii c) = Py.lower_ascii c.
Proof.
  unfold Py.lower_ascii.
  destruct (Nat.leb 65 (nat_of_ascii c) && Nat.leb (nat_of_ascii c) 90) eqn:Hc.
  - apply andb_true_iff in Hc. destruct Hc as [H1 H2].
    apply Nat.leb_le in H1. apply Nat.leb_le in H2.
    rewrite nat_ascii_embedding by lia.
    replace (Nat.leb (nat_of_ascii c + 32) 90) with false
      by (symmetry; apply Nat.leb_gt; lia).
    rewrite andb_false_r. reflexivity.
  - rewrite Hc. reflexivity.
Qed.

Lemma lower_idem (s : string) : Py.lower (Py.lower s) = Py.lower s.
Proof.
  induction s as [|c s IH]; simpl; [reflexivity|].
  rewrite lower_ascii_idem, IH. reflexivity.
Qed.

(** ** Selector generation *)

Lemma fold_extend (element_type : string) (attributes : list string) (acc : list string) :
  fold_left
    (fun selectors attr => (selectors ++ selectors_for element_type attr)%list)
    attributes acc
  = (acc ++ flat_map (selectors_for element_type) attributes)%list.
Proof.
  revert acc; induction attributes as [|attr rest IH]; intros acc; simpl.
  - rewrite app_nil_r. reflexivity.
  - rewrite IH, <- app_assoc. reflexivity.
Qed.

Lemma generate_flat_map (element_type : string) (attributes : list string) :
  generate_possible_selectors element_type attributes
  = flat_map (selectors_for element_type) attributes.
Proof. unfold generate_possible_selectors. rewrite fold_extend. reflexivity. Qed.

Lemma generate_cons (element_type attr : string) (rest : list string) :
  generate_possible_selectors element_type (attr :: rest)
  = (selectors_for element_type attr ++ generate_possible_selectors element_type rest)%list.
Proof. rewrite !generate_flat_map. reflexivity. Qed.

Lemma generate_length (element_type : string) (attributes : list string) :
  List.length (generate_possible_selectors element_type attributes)
  = 5 * List.length attributes.
Proof.
  induction attributes as [|attr rest IH]; [reflexivity|].
  rewrite generate_cons, length_app, IH. simpl. lia.
Qed.

(** C1, as stated, fails on the call the program itself makes for the
    user-name field: three hints give fifteen candidates, not eleven, and
    the sequence is not the one with the two role-name selectors once at
    its end. *)
Lemma generate_selectors_not_3n_plus_2 :
  let hints := ["id"; "name"; "placeholder"] in
  let candidates := generate_possible_selectors "username" hints in
  List.length candidates = 15
  /\ List.length candidates <> 3 * List.length hints + 2
  /\ candidates <> spec_generate "username" hints.
Proof.
  cbv zeta. split; [reflexivity|]. split; [simpl; lia|].
  intros H. apply (f_equal (@List.length string)) in H. discriminate H.
Qed.

(** C1, amended: for every role and every list of hints the generator
    returns 5 * |hints| entries: per hint, in hint order, the
    substring-match, exact-match and tag-qualified substring selectors
    followed by the id-style and class-style selectors of the role name;
    with one hint this is the sequence of 3 * 1 + 2 entries of the
    specification. *)
Theorem generate_selectors_five_per_hint (role : string) (hints : list string) :
  generate_possible_selectors role hints
  = flat_map (fun attr => (spec_selectors_for role attr ++ spec_fallbacks role)%list) hints
  /\ List.length (generate_possible_selectors role hints) = 5 * List.length hints
  /\ (forall attr, generate_possible_selectors role [attr] = spec_generate role [attr]).
Proof.
  split; [|split].
  - rewrite generate_flat_map. reflexivity.
  - apply generate_length.
  - intros attr. reflexivity.
Qed.

(** ** Outcome classification *)

Lemma indicator_found_iff (indicators : list string) (current_url page_source : string) :
  indicator_found indicators current_url page_source = true
  <-> exists k, In k indicators
                /\ (occurs_in k (Py.lower current_url) \/ occurs_in k page_source).
Proof.
  unfold indicator_found. rewrite existsb_exists.
  split; intros [k [Hin Hk]]; exists k; (split; [exact Hin|]).
  - apply orb_true_iff in Hk. rewrite !str_in_iff in Hk. exact Hk.
  - apply orb_true_iff. rewrite !str_in_iff. exact Hk.
Qed.

Lemma login_result_spec_classify (current_url raw_page_source : string) :
  login_result current_url raw_page_source
  = outcome_str
      (spec_classify current_url raw_page_source success_indicators failure_indicators).
Proof.
  unfold login_result, spec_classify, indicator_found.
  destruct (existsb _ success_indicators); [reflexivity|].
  destruct (existsb _ failure_indicators); reflexivity.
Qed.

Lemma login_result_success (current_url content : string) :
  keyword_occurs success_indicators current_url content ->
  login_result current_url content = "success".
Proof.
  intros H. unfold login_result.
  apply indicator_found_iff in H. rewrite H. reflexivity.
Qed.

Lemma login_result_failure (current_url content : string) :
  ~ keyword_occurs success_indicators current_url content ->
  login_result current_url content = "failure".
Proof.
  intros H. unfold login_result.
  destruct (indicator_found success_indicators _ _) eqn:Hs.
  - exfalso. apply H. apply indicator_found_iff. exact Hs.
  - destruct (indicator_found failure_indicators _ _); reflexivity.
Qed.

(** The answer depends on the lowercased inputs only. *)
Lemma login_result_lower (current_url content : string) :
  login_result (Py.lower current_url) (Py.lower content)
  = login_result current_url content.
Proof. unfold login_result, indicator_found. rewrite !lower_idem. reflexivity. Qed.

(** C3, as stated, fails: the classifier does not work over every
    keyword set given to it.  With no success keyword and dashboard as the
    only failure keyword, the classification of a dashboard URL over those
    sets is failure, and the program answers success. *)
Lemma classifier_not_over_given_keyword_sets :
  spec_classify "https://example.com/dashboard" "" [] ["dashboard"] = Failure
  /\ login_result "https://example.com/dashboard" "" = "success"
  /\ login_result "https://example.com/dashboard" ""
     <> outcome_str (spec_classify "https://example.com/dashboard" "" [] ["dashboard"]).
Proof.
  split; [reflexivity|]. split; [reflexivity|].
  vm_compute. discriminate.
Qed.

Section ClassifierReads.

Context {W E : Type} {drv : WebDriver W E}.

Lemma determine_login_result_reads (st : state W E) (u s : string) (w1 w2 : W) :
  drv_current_url (world st) = (inr u, w1) ->
  drv_page_source w1 = (inr s, w2) ->
  determine_login_result st
  = (inr (login_result u s),
     mk_state w2 (results st) (trace st ++ [CCurrentUrl; CPageSource])%list (stdout st)).
Proof.
  intros Hu Hs.
  unfold determine_login_result, bind, driver_call, ret. simpl.
  rewrite Hu. simpl. rewrite Hs. rewrite <- app_assoc. reflexivity.
Qed.

(** C3, amended: the classifier reads the URL and the page content and
    lowercases both; over its two embedded keyword lists (its keyword
    loop, for every list of keywords, finds a keyword exactly when one
    occurs in either) it answers success when a success keyword occurs,
    otherwise failure when a failure keyword occurs, otherwise failure; a
    URL containing dashboard gives success, content containing invalid
    with no success keyword gives failure, and no keyword at all gives
    failure. *)
Theorem classify_success_first_then_failure
    (st : state W E) (current_url content : string) (w1 w2 : W) :
  drv_current_url (world st) = (inr current_url, w1) ->
  drv_page_source w1 = (inr content, w2) ->
  fst (determine_login_result st) = inr (login_result current_url content)
  /\ (forall indicators,
        indicator_found indicators current_url (Py.lower content) = true
        <-> keyword_occurs indicators current_url content)
  /\ (forall url' content',
        Py.lower url' = Py.lower current_url ->
        Py.lower content' = Py.lower content ->
        login_result url' content' = login_result current_url content)
  /\ (keyword_occurs success_indicators current_url content ->
      login_result current_url content = "success")
  /\ (~ keyword_occurs success_indicators current_url content ->
      keyword_occurs failure_indicators current_url content ->
      login_result current_url content = "failure")
  /\ (~ keyword_occurs success_indicators current_url content ->
      ~ keyword_occurs failure_indicators current_url content ->
      login_result current_url content = "failure")
  /\ (occurs_in "dashboard" (Py.lower current_url) ->
      login_result current_url content = "success")
  /\ (occurs_in "invalid" (Py.lower content) ->
      ~ keyword_occurs success_indicators current_url content ->
      login_result current_url content = "failure").
Proof.
  intros Hu Hs.
  split; [|split; [|split; [|split; [|split; [|split; [|split]]]]]].
  - rewrite (determine_login_result_reads st _ _ _ _ Hu Hs). reflexivity.
  - intros indicators. apply indicator_found_iff.
  - intros url' content' H1 H2. unfold login_result, indicator_found.
    rewrite H1, H2. reflexivity.
  - apply login_result_success.
  - intros H _. apply login_result_failure, H.
  - intros H _. apply login_result_failure, H.
  - intros H. apply login_result_success.
    exists "dashboard". split; [simpl; auto | left; exact H].
  - intros _ H. apply login_result_failure, H.
Qed.

End ClassifierReads.

(** C3 on the stub: after a failed login the page says so, in capitals,
    and the URL still ends in login. *)
Lemma classify_success_first_then_failure_witness :
  let st := Stub.fresh
              (Stub.mk_page true [] [] [] "https://example.com/Login"
                 "<p>INVALID username or password</p>" "" "" 0) in
  fst (determine_login_result st) = inr "failure"
  /\ login_result "https://example.com/DASHBOARD" "" = "success".
Proof.
  cbv zeta.
  pose proof (classify_success_first_then_failure
                (Stub.fresh
                   (Stub.mk_page true [] [] [] "https://example.com/Login"
                      "<p>INVALID username or password</p>" "" "" 0))
                "https://example.com/Login" "<p>INVALID username or password</p>"
                _ _ eq_refl eq_refl) as [H1 [_ [_ [_ [_ [_ [_ H7]]]]]]].
  split.
  - rewrite H1. apply f_equal. apply H7.
    + exists "<p>", " username or password</p>". reflexivity.
    + intros [k [Hin Hk]].
      assert (Hf : indicator_found success_indicators "https://example.com/Login"
                     (Py.lower "<p>INVALID username or password</p>") = true)
        by (apply indicator_found_iff; exists k; auto).
      vm_compute in Hf. discriminate Hf.
  - pose proof (classify_success_first_then_failure
                  (Stub.fresh
                     (Stub.mk_page true [] [] [] "https://example.com/DASHBOARD" "" "" "" 0))
                  "https://example.com/DASHBOARD" "" _ _ eq_refl eq_refl)
      as [_ [_ [_ [_ [_ [_ [H6 _]]]]]]].
    apply H6. exists "https://example.com/", "". reflexivity.
Defined.

(** C8, as stated, fails: with the caller's keyword sets (portal as the
    only success keyword, no failure keyword) the classification over
    those sets is success, and the program answers failure. *)
Lemma classifier_ignores_caller_keywords :
  spec_classify "https://example.com/portal" "<h1>Portal</h1>" ["portal"] [] = Success
  /\ login_result "https://example.com/portal" "<h1>Portal</h1>" = "failure"
  /\ login_result "https://example.com/portal" "<h1>Portal</h1>"
     <> outcome_str
          (spec_classify "https://example.com/portal" "<h1>Portal</h1>" ["portal"] []).
Proof.
  split; [reflexivity|]. split; [reflexivity|].
  vm_compute. discriminate.
Qed.

(** C8, amended: the two keyword lists are constants of the classifier,
    which has no keyword parameter: for every URL and page content its
    answer is the classification over exactly the success keywords
    dashboard, welcome, success, home and the failure keywords error,
    invalid, failure, login. *)
Theorem classifier_keywords_are_embedded (current_url content : string) :
  success_indicators = ["dashboard"; "welcome"; "success"; "home"]
  /\ failure_indicators = ["error"; "invalid"; "failure"; "login"]
  /\ login_result current_url content
     = outcome_str
         (spec_classify current_url content
            ["dashboard"; "welcome"; "success"; "home"]
            ["error"; "invalid"; "failure"; "login"]).
Proof.
  split; [reflexivity|]. split; [reflexivity|].
  apply login_result_spec_classify.
Qed.

(** C10: keywords are matched as substrings of the lowercased URL and
    of the lowercased content, not as whole words: the keyword loop finds
    a keyword exactly when one occurs somewhere in either, the answer is
    success exactly when a success keyword occurs so, and failure exactly
    when none does; so whenever a success keyword occurs inside the
    content or the URL, even inside a longer word and whatever failure
    keywords occur besides, the answer is success. *)
Theorem success_substring_wins (current_url content : string) :
  (forall indicators,
      indicator_found indicators current_url (Py.lower content) = true
      <-> exists k,
            In k indicators
            /\ ((exists pre post, Py.lower current_url = pre ++ k ++ post)
                \/ (exists pre post, Py.lower content = pre ++ k ++ post)))
  /\ (login_result current_url content = "success"
      <-> exists k,
            In k success_indicators
            /\ ((exists pre post, Py.lower current_url = pre ++ k ++ post)
                \/ (exists pre post, Py.lower content = pre ++ k ++ post)))
  /\ (login_result current_url content = "failure"
      <-> ~ exists k,
              In k success_indicators
              /\ ((exists pre post, Py.lower current_url = pre ++ k ++ post)
                  \/ (exists pre post, Py.lower content = pre ++ k ++ post)))
  /\ (forall k pre post,
        In k success_indicators ->
        Py.lower content = pre ++ k ++ post ->
        login_result current_url content = "success")
  /\ (forall k pre post,
        In k success_indicators ->
        Py.lower current_url = pre ++ k ++ post ->
        login_result current_url content = "success").
Proof.
  assert (Hs : login_result current_url content = "success"
               <-> keyword_occurs success_indicators current_url content).
  { split; [|apply login_result_success].
    intros H. unfold login_result in H.
    destruct (indicator_found success_indicators current_url (Py.lower content)) eqn:Hf.
    - apply indicator_found_iff. exact Hf.
    - destruct (indicator_found failure_indicators _ _); discriminate H. }
  split; [|split; [|split; [|split]]].
  - intros indicators. apply indicator_found_iff.
  - exact Hs.
  - split.
    + intros H Hk. apply Hs in Hk. rewrite H in Hk. discriminate Hk.
    + apply login_result_failure.
  - intros k pre post Hin Hc. apply Hs.
    exists k. split; [exact Hin|]. right. exists pre, post. exact Hc.
  - intros k pre post Hin Hu. apply Hs.
    exists k. split; [exact Hin|]. left. exists pre, post. exact Hu.
Qed.

(** C10 on a failed login: unsuccessful contains success, and a page
    without any success keyword. *)
Lemma success_substring_wins_witness :
  In "success" success_indicators
  /\ Py.lower "Login Unsuccessful: invalid password"
     = "login un" ++ "success" ++ "ful: invalid password"
  /\ Py.str_in "invalid" (Py.lower "Login Unsuccessful: invalid password") = true
  /\ login_result "https://example.com/login" "Login Unsuccessful: invalid password"
     = "success"
  /\ login_result "https://example.com/Homepage" "" = "success"
  /\ login_result "https://example.com/login" "Invalid password" = "failure".
Proof.
  split; [simpl; auto|]. split; [reflexivity|]. split; [reflexivity|].
  split; [|split].
  - destruct (success_substring_wins "https://example.com/login"
                "Login Unsuccessful: invalid password") as (_ & _ & _ & H & _).
    apply (H "success" "login un" "ful: invalid password"); [simpl; auto | reflexivity].
  - destruct (success_substring_wins "https://example.com/Homepage" "")
      as (_ & _ & _ & _ & H).
    apply (H "home" "https://example.com/" "page"); [simpl; auto | reflexivity].
  - destruct (success_substring_wins "https://example.com/login" "Invalid password")
      as (Hloop & _ & Hfail & _).
    apply Hfail. intros Hk.
    apply (Hloop success_indicators) in Hk. vm_compute in Hk. discriminate Hk.
Defined.

(** ** Element location *)

Section LocationFacts.

Context {W E : Type} {drv : WebDriver W E}.

Lemma advanced_advanced (st : state W E) (w w' : W) (c c' : list (call E)) :
  advanced (advanced st w c) w' c' = advanced st w' (c ++ c')%list.
Proof. unfold advanced; simpl. rewrite app_assoc. reflexivity. Qed.

Lemma advanced_nil (st : state W E) : advanced st (world st) [] = st.
Proof. destruct st; unfold advanced; simpl. rewrite app_nil_r. reflexivity. Qed.

Lemma try_selectors_cons (selector : string) (rest : list string) (st : state W E) :
  try_selectors (selector :: rest) st
  = match wait_presence_css selector (world st) with
    | (inr element, w') => (inr (Some element), advanced st w' [CWaitCss selector])
    | (inl e, w') =>
        if is_timeout e then try_selectors rest (advanced st w' [CWaitCss selector])
        else (inl e, advanced st w' [CWaitCss selector])
    end.
Proof.
  simpl. unfold try_except, bind, driver_call, ret, advanced.
  destruct (wait_presence_css selector (world st)) as [[e|element] w']; reflexivity.
Qed.

Lemma try_selectors_all_time_out (selectors : list string) (st : state W E) (w1 : W) :
  all_time_out selectors (world st) = Some w1 ->
  try_selectors selectors st
  = (inr None, advanced st w1 (map CWaitCss selectors)).
Proof.
  revert st; induction selectors as [|selector rest IH]; intros st H.
  - simpl in H. injection H as <-. simpl. unfold ret.
    rewrite advanced_nil. reflexivity.
  - rewrite try_selectors_cons. simpl in H.
    destruct (wait_presence_css selector (world st)) as [[e|element] w'];
      [|discriminate].
    destruct e; try discriminate. simpl.
    rewrite (IH (advanced st w' [CWaitCss selector]) H).
    rewrite advanced_advanced. reflexivity.
Qed.

Lemma try_selectors_first_match
    (pre : list string) (selector : string) (post : list string)
    (st : state W E) (w' w'' : W) (element : E) :
  all_time_out pre (world st) = Some w' ->
  wait_presence_css selector w' = (inr element, w'') ->
  try_selectors (pre ++ selector :: post) st
  = (inr (Some element), advanced st w'' (map CWaitCss (pre ++ [selector]))).
Proof.
  revert st; induction pre as [|p pre IH]; intros st Hpre Hs.
  - simpl in Hpre. injection Hpre as <-.
    simpl app. rewrite try_selectors_cons, Hs. reflexivity.
  - simpl app. rewrite try_selectors_cons. simpl in Hpre.
    destruct (wait_presence_css p (world st)) as [[e|x] w0]; [|discriminate].
    destruct e; try discriminate. simpl is_timeout. cbv iota.
    rewrite (IH (advanced st w0 [CWaitCss p]) Hpre Hs).
    rewrite advanced_advanced. reflexivity.
Qed.

Lemma try_selectors_linear (selectors : list string) (st : state W E) :
  exists k,
    k <= List.length selectors
    /\ trace (snd (try_selectors selectors st))
       = (trace st ++ map CWaitCss (firstn k selectors))%list
    /\ (fst (try_selectors selectors st) = inr None -> k = List.length selectors).
Proof.
  revert st; induction selectors as [|selector rest IH]; intros st.
  - exists 0. simpl. rewrite app_nil_r. auto.
  - rewrite try_selectors_cons.
    destruct (wait_presence_css selector (world st)) as [[e|element] w'].
    + destruct (is_timeout e).
      * destruct (IH (advanced st w' [CWaitCss selector])) as [k [Hk [Ht Hn]]].
        exists (S k). split; [simpl; lia|]. split.
        -- rewrite Ht. simpl. rewrite <- app_assoc. reflexivity.
        -- intros H. simpl. f_equal. apply Hn, H.
      * exists 1. split; [simpl; lia|]. split; [reflexivity|]. discriminate.
    + exists 1. split; [simpl; lia|]. split; [reflexivity|]. discriminate.
Qed.

Lemma fallback_lookup_eq (element_type : string) (st : state W E) :
  fallback_lookup element_type st
  = match find_element_by_id element_type (world st) with
    | (inr element, w2) => (inr element, advanced st w2 [CFindId element_type])
    | (inl e, w2) =>
        if is_no_such_element e then
          match find_element_by_name element_type w2 with
          | (inr element, w3) =>
              (inr element,
               advanced st w3 [CFindId element_type; CFindName element_type])
          | (inl e', w3) =>
              (inl (if is_no_such_element e'
                    then PyException ("Could not locate " ++ element_type ++ " element")
                    else e'),
               advanced st w3 [CFindId element_type; CFindName element_type])
          end
        else (inl e, advanced st w2 [CFindId element_type])
    end.
Proof.
  unfold fallback_lookup, try_except, driver_call, raise, advanced.
  destruct (find_element_by_id element_type (world st)) as [[e|element] w2];
    [|reflexivity].
  destruct (is_no_such_element e); [|reflexivity]. simpl.
  destruct (find_element_by_name element_type w2) as [[e'|element] w3];
    rewrite <- app_assoc; [|reflexivity].
  destruct (is_no_such_element e'); reflexivity.
Qed.

Lemma find_element_after_timeouts
    (element_type : string) (attributes : list string) (st : state W E) (w1 : W) :
  all_time_out (generate_possible_selectors element_type attributes) (world st) = Some w1 ->
  find_element_with_ai element_type attributes st
  = fallback_lookup element_type
      (advanced st w1
         (map CWaitCss (generate_possible_selectors element_type attributes))).
Proof.
  intros H. unfold find_element_with_ai, bind.
  rewrite (try_selectors_all_time_out _ _ _ H). reflexivity.
Qed.

Lemma css_probes_app (selector : string) (c1 c2 : list (call E)) :
  css_probes selector (c1 ++ c2) = css_probes selector c1 + css_probes selector c2.
Proof. unfold css_probes. rewrite filter_app, length_app. reflexivity. Qed.

Lemma css_probes_id_selector (role : string) (hints : list string) :
  css_probes (E:=E) ("#" ++ role) (map CWaitCss (generate_possible_selectors role hints))
  = List.length hints.
Proof.
  induction hints as [|attr rest IH]; [reflexivity|].
  rewrite generate_cons, map_app, css_probes_app, IH.
  unfold css_probes, selectors_for. cbn. rewrite String.eqb_refl. reflexivity.
Qed.

Lemma css_probes_class_selector (role : string) (hints : list string) :
  css_probes (E:=E) ("." ++ role) (map CWaitCss (generate_possible_selectors role hints))
  = List.length hints.
Proof.
  induction hints as [|attr rest IH]; [reflexivity|].
  rewrite generate_cons, map_app, css_probes_app, IH.
  unfold css_probes, selectors_for. cbn. rewrite String.eqb_refl. reflexivity.
Qed.

(** C6, amended: when every generated candidate times out, the resolver
    makes exactly two further lookups, by id and then by name, both with
    the role name, and returns the first that matches; when both find
    nothing it raises the exception that names the role.  The candidates
    are probed in one pass in list order and the pass ends at the first
    match; no position of the list is probed twice, but the id-style and
    class-style selectors, which the list holds once per hint, are probed
    once per hint. *)
Theorem resolve_fallbacks_after_timeouts
    (role : string) (hints : list string) (st : state W E) (w1 : W) :
  let candidates := generate_possible_selectors role hints in
  all_time_out candidates (world st) = Some w1 ->
  (forall element w2,
      find_element_by_id role w1 = (inr element, w2) ->
      find_element_with_ai role hints st
      = (inr element, advanced st w2 (map CWaitCss candidates ++ [CFindId role])%list))
  /\ (forall msg w2 element w3,
        find_element_by_id role w1 = (inl (NoSuchElementException msg), w2) ->
        find_element_by_name role w2 = (inr element, w3) ->
        find_element_with_ai role hints st
        = (inr element,
           advanced st w3 (map CWaitCss candidates ++ [CFindId role; CFindName role])%list))
  /\ (forall msg w2 msg' w3,
        find_element_by_id role w1 = (inl (NoSuchElementException msg), w2) ->
        find_element_by_name role w2 = (inl (NoSuchElementException msg'), w3) ->
        find_element_with_ai role hints st
        = (inl (PyException ("Could not locate " ++ role ++ " element")),
           advanced st w3 (map CWaitCss candidates ++ [CFindId role; CFindName role])%list))
  /\ (forall st0 : state W E,
        exists k,
          k <= List.length candidates
          /\ trace (snd (try_selectors candidates st0))
             = (trace st0 ++ map CWaitCss (firstn k candidates))%list
          /\ (fst (try_selectors candidates st0) = inr None
              -> k = List.length candidates))
  /\ (forall (st0 : state W E) pre selector post w' w'' element,
        candidates = (pre ++ selector :: post)%list ->
        all_time_out pre (world st0) = Some w' ->
        wait_presence_css selector w' = (inr element, w'') ->
        find_element_with_ai role hints st0
        = (inr element, advanced st0 w'' (map CWaitCss (pre ++ [selector]))))
  /\ css_probes (E:=E) ("#" ++ role) (map CWaitCss candidates) = List.length hints
  /\ css_probes (E:=E) ("." ++ role) (map CWaitCss candidates) = List.length hints.
Proof.
  intros candidates Hall.
  pose proof (find_element_after_timeouts role hints st w1 Hall) as Hfind.
  fold candidates in Hfind.
  rewrite fallback_lookup_eq in Hfind. simpl world in Hfind.
  split; [|split; [|split; [|split; [|split; [|split]]]]].
  - intros element w2 Hid. rewrite Hfind, Hid.
    rewrite advanced_advanced. reflexivity.
  - intros msg w2 element w3 Hid Hname. rewrite Hfind, Hid. simpl.
    rewrite Hname, advanced_advanced. reflexivity.
  - intros msg w2 msg' w3 Hid Hname. rewrite Hfind, Hid. simpl.
    rewrite Hname, advanced_advanced. reflexivity.
  - intros st0. apply try_selectors_linear.
  - intros st0 pre selector post w' w'' element Hc Hpre Hsel.
    unfold find_element_with_ai, bind. fold candidates. rewrite Hc.
    rewrite (try_selectors_first_match pre selector post st0 w' w'' element Hpre Hsel).
    reflexivity.
  - apply css_probes_id_selector.
  - apply css_probes_class_selector.
Qed.

(** C9: with no hint the generator returns the empty sequence, so the
    resolver probes no CSS candidate: its answer is that of the two direct
    lookups, and its driver calls are the lookup by id, followed or not by
    the lookup by name. *)
Theorem empty_hints_fallbacks_only (role : string) (st : state W E) :
  generate_possible_selectors role [] = []
  /\ find_element_with_ai role [] st = fallback_lookup role st
  /\ (trace (snd (find_element_with_ai role [] st)) = (trace st ++ [CFindId role])%list
      \/ trace (snd (find_element_with_ai role [] st))
         = (trace st ++ [CFindId role; CFindName role])%list).
Proof.
  split; [reflexivity|].
  assert (Heq : find_element_with_ai role [] st = fallback_lookup role st)
    by reflexivity.
  split; [exact Heq|].
  rewrite Heq, fallback_lookup_eq.
  destruct (find_element_by_id role (world st)) as [[e|element] w2]; [|left; reflexivity].
  destruct (is_no_such_element e); [|left; reflexivity].
  destruct (find_element_by_name role w2) as [[e'|element] w3]; right; reflexivity.
Qed.

End LocationFacts.

(** C6, as stated, fails on the call the program makes for the login
    button: on a page where every candidate times out, the candidate
    #login is probed three times within the one resolution call. *)
Lemma resolver_probes_selector_again :
  let hints := ["id"; "class"; "value"] in
  let st := Stub.fresh Stub.empty_page in
  all_time_out (generate_possible_selectors "login" hints) (world st)
  = Some (Stub.tick 150 Stub.empty_page)
  /\ css_probes "#login" (trace (snd (find_element_with_ai "login" hints st))) = 3
  /\ ~ css_probes "#login" (trace (snd (find_element_with_ai "login" hints st))) <= 1.
Proof.
  cbv zeta. split; [reflexivity|].
  assert (H : css_probes "#login"
                (trace (snd (find_element_with_ai "login" ["id"; "class"; "value"]
                               (Stub.fresh Stub.empty_page)))) = 3)
    by (vm_compute; reflexivity).
  split; [exact H|]. rewrite H. lia.
Qed.

(** C6 on the stub: a page no selector matches, whose login button is
    reachable by name; a page with no control at all; and a page where
    the seventh candidate for the password field matches. *)
Lemma resolve_fallbacks_after_timeouts_witness :
  let hints := ["id"; "class"; "value"] in
  let probes := map CWaitCss (generate_possible_selectors "login" hints) in
  find_element_with_ai "login" hints (Stub.fresh Stub.bare_page)
  = (inr Stub.LoginButton,
     advanced (Stub.fresh Stub.bare_page) (Stub.tick 150 Stub.bare_page)
       (probes ++ [CFindId "login"; CFindName "login"])%list)
  /\ find_element_with_ai "login" hints (Stub.fresh Stub.empty_page)
     = (inl (PyException "Could not locate login element"),
        advanced (Stub.fresh Stub.empty_page) (Stub.tick 150 Stub.empty_page)
          (probes ++ [CFindId "login"; CFindName "login"])%list)
  /\ List.length
       (trace (snd (find_element_with_ai "password" ["id"; "name"; "type"]
                      (Stub.fresh Stub.login_page)))) = 7.
Proof.
  cbv zeta. split; [|split].
  - destruct (resolve_fallbacks_after_timeouts (drv:=Stub.driver) "login" ["id"; "class"; "value"]
                (Stub.fresh Stub.bare_page) (Stub.tick 150 Stub.bare_page) eq_refl)
      as [_ [H _]].
    exact (H "Message: no such element" _ Stub.LoginButton _ eq_refl eq_refl).
  - destruct (resolve_fallbacks_after_timeouts (drv:=Stub.driver) "login" ["id"; "class"; "value"]
                (Stub.fresh Stub.empty_page) (Stub.tick 150 Stub.empty_page) eq_refl)
      as [_ [_ [H _]]].
    exact (H "Message: no such element" _ "Message: no such element" _ eq_refl eq_refl).
  - destruct (resolve_fallbacks_after_timeouts (drv:=Stub.driver) "password" ["id"; "name"; "type"]
                (Stub.fresh Stub.empty_page) (Stub.tick 150 Stub.empty_page) eq_refl)
      as [_ [_ [_ [_ [H _]]]]].
    rewrite (H (Stub.fresh Stub.login_page)
               (firstn 6 (generate_possible_selectors "password" ["id"; "name"; "type"]))
               ("[name=" ++ Py.dq ++ "password" ++ Py.dq ++ "]")
               (skipn 7 (generate_possible_selectors "password" ["id"; "name"; "type"]))
               (Stub.tick 60 Stub.login_page) (Stub.tick 60 Stub.login_page)
               Stub.PassField eq_refl eq_refl eq_refl).
    reflexivity.
Defined.

(** ** Scenario execution *)

Section ScenarioFacts.

Context {W E : Type} {drv : WebDriver W E}.

Lemma frames_ret {A} (a : A) : frames (W:=W) (E:=E) (ret a).
Proof. intros st; split; reflexivity. Qed.

Lemma frames_raise {A} (e : exn) : frames (W:=W) (E:=E) (raise (A:=A) e).
Proof. intros st; split; reflexivity. Qed.

Lemma frames_bind {A B} (m : M W E A) (k : A -> M W E B) :
  frames m -> (forall a, frames (k a)) -> frames (bind m k).
Proof.
  intros Hm Hk st. unfold bind. specialize (Hm st).
  destruct (m st) as [[e|a] st']; simpl in *; [exact Hm|].
  destruct (Hk a st') as [H1 H2]. destruct Hm as [H3 H4].
  split; congruence.
Qed.

Lemma frames_try_except {A} (catches : exn -> bool) (m : M W E A) (h : exn -> M W E A) :
  frames m -> (forall e, frames (h e)) -> frames (try_except catches m h).
Proof.
  intros Hm Hh st. unfold try_except. specialize (Hm st).
  destruct (m st) as [[e|a] st']; simpl in *; [|exact Hm].
  destruct (catches e); simpl; [|exact Hm].
  destruct (Hh e st') as [H1 H2]. destruct Hm as [H3 H4].
  split; congruence.
Qed.

Lemma frames_driver_call {A} (c : call E) (op : W -> (exn + A) * W) :
  frames (driver_call c op).
Proof.
  intros st. unfold driver_call. destruct (op (world st)); split; reflexivity.
Qed.

Lemma frames_strftime : frames strftime.
Proof. intros st; split; reflexivity. Qed.

Lemma frames_try_selectors (selectors : list string) : frames (try_selectors selectors).
Proof.
  induction selectors as [|selector rest IH]; simpl.
  - apply frames_ret.
  - apply frames_try_except; [|intros _; exact IH].
    apply frames_bind; [apply frames_driver_call | intros; apply frames_ret].
Qed.

Lemma frames_find_element (element_type : string) (attributes : list string) :
  frames (find_element_with_ai element_type attributes).
Proof.
  unfold find_element_with_ai. apply frames_bind; [apply frames_try_selectors|].
  intros [element|]; [apply frames_ret|].
  unfold fallback_lookup.
  repeat (apply frames_try_except; [apply frames_driver_call | intros _]).
  apply frames_raise.
Qed.

Lemma frames_determine_login_result : frames determine_login_result.
Proof.
  unfold determine_login_result.
  repeat (apply frames_bind; [apply frames_driver_call | intros]).
  apply frames_ret.
Qed.

Lemma frames_login_test_body (tc : test_case) : frames (login_test_body tc).
Proof.
  unfold login_test_body, sleep.
  repeat first
    [ apply frames_ret
    | apply frames_bind;
      [ first [ apply frames_driver_call | apply frames_find_element
              | apply frames_determine_login_result | apply frames_strftime ]
      | intros ] ].
Qed.

Lemma frames_execute_login_test (tc : test_case) : frames (execute_login_test tc).
Proof.
  unfold execute_login_test, login_test_handler.
  apply frames_try_except; [apply frames_login_test_body|].
  intros e. apply frames_bind; [apply frames_strftime | intros; apply frames_ret].
Qed.

Lemma bind_inr {A B} (m : M W E A) (k : A -> M W E B) (st st' : state W E) (b : B) :
  bind m k st = (inr b, st') ->
  exists a st1, m st = (inr a, st1) /\ k a st1 = (inr b, st').
Proof.
  unfold bind. destruct (m st) as [[e|a] st1]; [discriminate|].
  intros H. exists a, st1. auto.
Qed.

Lemma login_result_values (current_url raw_page_source : string) :
  login_result current_url raw_page_source = "success"
  \/ login_result current_url raw_page_source = "failure".
Proof.
  unfold login_result.
  destruct (indicator_found success_indicators _ _); [left; reflexivity|].
  destruct (indicator_found failure_indicators _ _); right; reflexivity.
Qed.

Lemma determine_login_result_values (st st' : state W E) (actual : string) :
  determine_login_result st = (inr actual, st') ->
  actual = "success" \/ actual = "failure".
Proof.
  unfold determine_login_result. intros H.
  apply bind_inr in H. destruct H as (u & st1 & _ & H).
  apply bind_inr in H. destruct H as (s & st2 & _ & H).
  unfold ret in H. injection H as <- _. apply login_result_values.
Qed.

(** What the [try] block returns when it raises nothing. *)
Lemma login_test_body_returns (tc : test_case) (st st' : state W E) (res : test_result) :
  login_test_body tc st = (inr res, st') ->
  r_test_case res = tc_name tc
  /\ r_username res = tc_username tc
  /\ r_expected res = tc_expected_result tc
  /\ (r_actual res = "success" \/ r_actual res = "failure")
  /\ r_status res = (if String.eqb (r_actual res) (r_expected res) then "PASS" else "FAIL")
  /\ r_error res = None.
Proof.
  unfold login_test_body. intros H.
  do 10 (apply bind_inr in H; destruct H as (? & ? & _ & H)).
  apply bind_inr in H. destruct H as (actual & st1 & Hactual & H).
  apply bind_inr in H. destruct H as (ts & st2 & _ & H).
  unfold ret in H. injection H as <- _. simpl.
  apply determine_login_result_values in Hactual. auto 10.
Qed.

(** [execute_login_test] in terms of its [try] block. *)
Lemma execute_login_test_eq (tc : test_case) (st : state W E) :
  execute_login_test tc st
  = match login_test_body tc st with
    | (inr res, st') => (inr res, st')
    | (inl e, st') =>
        (inr (mk_result (tc_name tc) (tc_username tc) (tc_expected_result tc) "error"
                "ERROR" (Some (str_exn e)) (time_strftime (world st'))),
         st')
    end.
Proof.
  unfold execute_login_test, try_except.
  destruct (login_test_body tc st) as [[e|res] st']; reflexivity.
Qed.

(** C2: every executed scenario yields a result whose status is PASS
    exactly when actual equals expected and nothing was raised, and ERROR
    exactly when the navigation, the resolution of a control, an
    interaction or the reading of the page raised; in that case actual is
    the word error, which is neither success nor failure. *)
Theorem result_status_invariant (tc : test_case) (st : state W E) :
  exists res st',
    execute_login_test tc st = (inr res, st')
    /\ (r_status res = "PASS"
        <-> r_actual res = r_expected res /\ ~ scenario_raised tc st)
    /\ (r_status res = "ERROR" <-> scenario_raised tc st)
    /\ (scenario_raised tc st ->
        r_actual res = "error"
        /\ r_actual res <> "success" /\ r_actual res <> "failure").
Proof.
  rewrite execute_login_test_eq. unfold scenario_raised.
  destruct (login_test_body tc st) as [[e|res] st'] eqn:Hbody.
  - eexists _, st'. split; [reflexivity|]. simpl.
    split; [|split].
    + split; [discriminate|]. intros [_ H]. exfalso. apply H. eauto.
    + split; eauto.
    + intros _. repeat split; discriminate.
  - exists res, st'. split; [reflexivity|].
    destruct (login_test_body_returns tc st st' res Hbody)
      as (_ & _ & _ & Hactual & Hstatus & _).
    assert (Hno : ~ (exists e s, (inr res, st') = (inl e, s) :> (exn + test_result) * state W E))
      by (intros (e & s & H); discriminate H).
    split; [|split].
    + rewrite Hstatus.
      destruct (String.eqb_spec (r_actual res) (r_expected res)) as [Heq|Hne].
      * split; auto.
      * split; [discriminate|]. intros [H _]. contradiction.
    + rewrite Hstatus. split.
      * destruct (String.eqb (r_actual res) (r_expected res)); discriminate.
      * intros H. contradiction.
    + intros H. contradiction.
Qed.

End ScenarioFacts.

(** C2 on the stub: a scenario that passes, and one that errors because
    the browser cannot reach the page. *)
Lemma result_status_invariant_witness :
  let tc := mk_case "Valid Credentials" "testuser" "correctpassword" "success" in
  (exists res st',
      execute_login_test tc (Stub.fresh Stub.login_page) = (inr res, st')
      /\ r_status res = "PASS")
  /\ (exists res st',
        execute_login_test tc (Stub.fresh Stub.offline_page) = (inr res, st')
        /\ r_status res = "ERROR" /\ r_actual res = "error").
Proof.
  cbv zeta. split.
  - destruct (result_status_invariant (drv:=Stub.driver)
                (mk_case "Valid Credentials" "testuser" "correctpassword" "success")
                (Stub.fresh Stub.login_page))
      as (res & st' & Hrun & Hpass & _ & _).
    exists res, st'. split; [exact Hrun|].
    apply Hpass. vm_compute in Hrun. injection Hrun as <- _.
    split; [reflexivity|].
    intros (e & s & H). vm_compute in H. discriminate H.
  - destruct (result_status_invariant (drv:=Stub.driver)
                (mk_case "Valid Credentials" "testuser" "correctpassword" "success")
                (Stub.fresh Stub.offline_page))
      as (res & st' & Hrun & _ & Herror & Hactual).
    exists res, st'. split; [exact Hrun|].
    assert (Hraised : scenario_raised (drv:=Stub.driver)
                        (mk_case "Valid Credentials" "testuser" "correctpassword" "success")
                        (Stub.fresh Stub.offline_page))
      by (eexists _, _; vm_compute; reflexivity).
    split; [apply Herror, Hraised | apply Hactual, Hraised].
Defined.

(** ** Report generation *)

Lemma filter_map_status (value : string) (rs : list test_result) :
  List.length (filter (String.eqb value) (map r_status rs)) = with_status value rs.
Proof.
  unfold with_status. induction rs as [|r rs IH]; simpl; [reflexivity|].
  destruct (String.eqb value (r_status r)); simpl; rewrite IH; reflexivity.
Qed.

Lemma count_status_nonempty (r : test_result) (rs : list test_result) (value : string) :
  count_status (r :: rs) value = inr (with_status value (r :: rs)).
Proof.
  unfold count_status, df_status. rewrite filter_map_status. reflexivity.
Qed.

Lemma compute_report_empty : compute_report [] = inl (KeyError "status").
Proof. reflexivity. Qed.

Lemma compute_report_nonempty (rs : list test_result) :
  rs <> [] ->
  compute_report rs
  = inr (mk_report (List.length rs) (with_status "PASS" rs) (with_status "FAIL" rs)
           (with_status "ERROR" rs)
           (Float.mul
              (Float.div (Float.of_Z (Z.of_nat (with_status "PASS" rs)))
                 (Float.of_Z (Z.of_nat (List.length rs))))
              (Float.of_Z 100))).
Proof.
  destruct rs as [|r rs]; [congruence|]. intros _.
  unfold compute_report. rewrite !count_status_nonempty. reflexivity.
Qed.

Lemma with_status_cons (value : string) (r : test_result) (rs : list test_result) :
  with_status value (r :: rs)
  = (if String.eqb value (r_status r) then 1 else 0) + with_status value rs.
Proof.
  unfold with_status. cbn [filter].
  destruct (String.eqb value (r_status r)); reflexivity.
Qed.

(** The three statuses partition the results of the program. *)
Lemma with_status_partition (rs : list test_result) :
  Forall (fun r => In (r_status r) ["PASS"; "FAIL"; "ERROR"]) rs ->
  with_status "PASS" rs + with_status "FAIL" rs + with_status "ERROR" rs
  = List.length rs.
Proof.
  induction 1 as [|r rs Hr _ IH]; [reflexivity|].
  rewrite !with_status_cons. cbn [List.length].
  destruct Hr as [Hr|[Hr|[Hr|[]]]]; rewrite <- Hr;
    cbv [String.eqb Ascii.eqb Bool.eqb]; lia.
Qed.

(** [round_tenths m e] is an integer nearest to [10 * m * 2^e]: for a
    negative exponent [-p], it is within one half of [10 * m / 2^p]. *)
Lemma round_tenths_nearest (m p : positive) :
  let d := N.pow 2 (Npos p) in
  let n := Float.round_tenths m (Zneg p) in
  (2 * n * d <= 2 * (10 * Npos m) + d /\ 2 * (10 * Npos m) <= 2 * n * d + d)%N.
Proof.
  cbv zeta. unfold Float.round_tenths.
  set (d := N.pow 2 (Npos p)). set (a := (10 * Npos m)%N).
  assert (Hd : (d <> 0)%N) by (unfold d; apply N.pow_nonzero; discriminate).
  pose proof (N.div_mod a d Hd) as Ha.
  pose proof (N.mod_lt a d Hd) as Hr.
  set (q := (a / d)%N) in *. set (r := (a mod d)%N) in *.
  destruct (N.compare_spec (2 * r) d) as [Heq|Hlt|Hgt].
  - destruct (N.even q); nia.
  - nia.
  - nia.
Qed.

Lemma round_tenths_exact (m : positive) (e : Z) :
  (0 <= e)%Z ->
  Float.round_tenths m e = (10 * Npos m * N.pow 2 (Z.to_N e))%N.
Proof. destruct e; [reflexivity | reflexivity | lia]. Qed.

(** C7: for a non-empty sequence of results, the report has a total
    equal to the number of results, the numbers of results with status
    PASS, FAIL and ERROR, and the success rate passed / total * 100,
    printed as the nearest number with one decimal; for the statuses
    PASS, PASS, FAIL, ERROR this is 4, 2, 1, 1 and 50.0. *)
Theorem report_counts_and_rate (rs : list test_result) :
  rs <> [] ->
  exists r,
    compute_report rs = inr r
    /\ total_tests r = List.length rs
    /\ passed_tests r = with_status "PASS" rs
    /\ failed_tests r = with_status "FAIL" rs
    /\ error_tests r = with_status "ERROR" rs
    /\ success_rate r
       = Float.mul
           (Float.div (Float.of_Z (Z.of_nat (passed_tests r)))
              (Float.of_Z (Z.of_nat (total_tests r))))
           (Float.of_Z 100)
    /\ report_lines r
       = [ "Total Tests: " ++ Py.str_of_nat (List.length rs);
           "Passed: " ++ Py.str_of_nat (with_status "PASS" rs);
           "Failed: " ++ Py.str_of_nat (with_status "FAIL" rs);
           "Errors: " ++ Py.str_of_nat (with_status "ERROR" rs);
           "Success Rate: " ++ Float.format_1f (success_rate r) ++ "%" ]
    /\ (forall m p,
          success_rate r = S754_finite false m (Zneg p) ->
          let n := Float.round_tenths m (Zneg p) in
          Float.format_1f (success_rate r)
          = Py.str_of_N (N.div n 10) ++ "." ++ Py.str_of_N (N.modulo n 10)
          /\ (2 * n * N.pow 2 (Npos p) <= 2 * (10 * Npos m) + N.pow 2 (Npos p))%N
          /\ (2 * (10 * Npos m) <= 2 * n * N.pow 2 (Npos p) + N.pow 2 (Npos p))%N)
    /\ (Forall (fun x => In (r_status x) ["PASS"; "FAIL"; "ERROR"]) rs ->
        passed_tests r + failed_tests r + error_tests r = total_tests r)
    /\ (map r_status rs = ["PASS"; "PASS"; "FAIL"; "ERROR"] ->
        total_tests r = 4 /\ passed_tests r = 2 /\ failed_tests r = 1
        /\ error_tests r = 1
        /\ Float.format_1f (success_rate r) = "50.0").
Proof.
  intros Hne. eexists. split; [apply compute_report_nonempty, Hne|].
  cbn [total_tests passed_tests failed_tests error_tests success_rate].
  repeat (split; [reflexivity|]).
  split; [|split].
  - intros m p Hrate. cbv zeta. rewrite Hrate.
    split; [reflexivity|]. apply round_tenths_nearest.
  - apply with_status_partition.
  - intros Hst.
    assert (Hlen : List.length rs = 4)
      by (rewrite <- (length_map r_status), Hst; reflexivity).
    assert (Hcount : forall v, with_status v rs
                               = List.length (filter (String.eqb v)
                                                ["PASS"; "PASS"; "FAIL"; "ERROR"]))
      by (intros v; rewrite <- filter_map_status, Hst; reflexivity).
    rewrite Hlen, !Hcount. repeat split.
Qed.

(** C7 on the four statuses of the specification. *)
Lemma report_counts_and_rate_witness :
  let rs := map (fun s => mk_result "" "" "" "" s None "") ["PASS"; "PASS"; "FAIL"; "ERROR"] in
  rs <> []
  /\ exists r,
       compute_report rs = inr r
       /\ total_tests r = 4 /\ passed_tests r = 2 /\ failed_tests r = 1
       /\ error_tests r = 1
       /\ report_lines r
          = ["Total Tests: 4"; "Passed: 2"; "Failed: 1"; "Errors: 1"; "Success Rate: 50.0%"].
Proof.
  cbv zeta. split; [discriminate|].
  destruct (report_counts_and_rate
              (map (fun s => mk_result "" "" "" "" s None "")
                 ["PASS"; "PASS"; "FAIL"; "ERROR"]))
    as (r & Hr & _ & _ & _ & _ & _ & Hlines & _ & _ & Hex);
    [discriminate|].
  exists r. split; [exact Hr|].
  destruct (Hex eq_refl) as (H1 & H2 & H3 & H4 & H5).
  repeat (split; [assumption|]).
  rewrite Hlines, H5. reflexivity.
Defined.

(** ** The batch *)

Section BatchFacts.

Context {W E : Type} {drv : WebDriver W E}.

Lemma generate_test_report_nonempty (st : state W E) :
  results st <> [] ->
  exists r,
    compute_report (results st) = inr r
    /\ generate_test_report st
       = (inr tt,
          mk_state (world st) (results st) (trace st) (stdout st ++ report_lines r)%list).
Proof.
  intros Hne. unfold generate_test_report.
  rewrite (compute_report_nonempty _ Hne). eexists. split; reflexivity.
Qed.

(** C4: on an empty list of results the report raises (the lookup of the
    status column fails with a KeyError), prints no statistics and hands
    the exception to its caller; on every non-empty list it returns and
    prints the statistics. *)
Theorem report_fails_on_empty_only (st : state W E) :
  (results st = [] ->
   compute_report (results st) = inl (KeyError "status")
   /\ generate_test_report st = (inl (KeyError "status"), st)
   /\ (run_test_cases [] ;;; generate_test_report) st = (inl (KeyError "status"), st))
  /\ (results st <> [] ->
      exists r,
        compute_report (results st) = inr r
        /\ generate_test_report st
           = (inr tt,
              mk_state (world st) (results st) (trace st)
                (stdout st ++ report_lines r)%list)).
Proof.
  split.
  - intros Hnil. unfold bind, generate_test_report. simpl. rewrite Hnil. auto.
  - apply generate_test_report_nonempty.
Qed.

Lemma execute_login_test_total (tc : test_case) (st : state W E) :
  exists res st',
    execute_login_test tc st = (inr res, st')
    /\ results st' = results st /\ stdout st' = stdout st
    /\ r_test_case res = tc_name tc
    /\ r_expected res = tc_expected_result tc
    /\ In (r_status res) ["PASS"; "FAIL"; "ERROR"]
    /\ (forall e s,
          login_test_body tc st = (inl e, s) ->
          st' = s /\ r_status res = "ERROR" /\ r_actual res = "error"
          /\ r_error res = Some (str_exn e)).
Proof.
  pose proof (frames_execute_login_test tc st) as [Hres Hout].
  rewrite execute_login_test_eq in *.
  destruct (login_test_body tc st) as [[e|res] st'] eqn:Hbody.
  - eexists _, st'. split; [reflexivity|]. simpl in *.
    do 5 (split; [auto|]).
    intros e' s' H. injection H as <- <-. auto.
  - exists res, st'. split; [reflexivity|]. simpl in *.
    destruct (login_test_body_returns tc st st' res Hbody)
      as (Hname & _ & Hexp & _ & Hstatus & _).
    do 4 (split; [auto|]). split; [|discriminate].
    rewrite Hstatus. destruct (String.eqb _ _); simpl; auto.
Qed.

Lemma run_test_cases_total (cases : list test_case) (st : state W E) :
  exists rs st',
    run_test_cases cases st = (inr tt, st')
    /\ results st' = (results st ++ rs)%list
    /\ stdout st' = stdout st
    /\ map r_test_case rs = map tc_name cases
    /\ map r_expected rs = map tc_expected_result cases
    /\ Forall (fun r => In (r_status r) ["PASS"; "FAIL"; "ERROR"]) rs.
Proof.
  revert st; induction cases as [|tc rest IH]; intros st.
  - exists [], st. simpl. rewrite app_nil_r. auto 10.
  - destruct (execute_login_test_total tc st)
      as (res & st1 & Hrun & Hres & Hout & Hname & Hexp & Hstatus & _).
    destruct (IH (mk_state (world st1) (results st1 ++ [res])%list (trace st1) (stdout st1)))
      as (rs & st2 & Hrest & Hres2 & Hout2 & Hnames & Hexps & Hall).
    exists (res :: rs), st2.
    cbn [run_test_cases]. unfold bind at 1. rewrite Hrun.
    unfold bind at 1. unfold results_append at 1.
    split; [exact Hrest|]. simpl in *.
    rewrite Hres2, Hres, <- app_assoc, Hout2, Hout, Hname, Hexp, Hnames, Hexps.
    auto 10.
Qed.

Lemma run_test_cases_chain (cases : list test_case) (st : state W E) :
  exists rs st1,
    run_test_cases cases st = (inr tt, st1) /\ scenarios_run cases st rs st1.
Proof.
  revert st; induction cases as [|tc rest IH]; intros st.
  - exists [], st. split; [reflexivity | constructor].
  - destruct (execute_login_test_total tc st) as (res & st1 & Hrun & _).
    destruct (IH (mk_state (world st1) (results st1 ++ [res])%list (trace st1) (stdout st1)))
      as (rs & st2 & Hrest & Hchain).
    exists (res :: rs), st2. split.
    + cbn [run_test_cases]. unfold bind at 1. rewrite Hrun.
      unfold bind at 1. unfold results_append at 1. exact Hrest.
    + econstructor; eassumption.
Qed.

Lemma scenarios_run_results (cases : list test_case) (st st1 : state W E)
    (rs : list test_result) :
  scenarios_run cases st rs st1 ->
  results st1 = (results st ++ rs)%list /\ stdout st1 = stdout st.
Proof.
  induction 1 as [st|tc rest st st1 st2 res rs Hrun _ IH].
  - rewrite app_nil_r. auto.
  - destruct IH as [IHr IHo]. cbn [results stdout] in IHr, IHo.
    pose proof (frames_execute_login_test tc st) as [Hres Hout].
    rewrite Hrun in Hres, Hout. cbn [snd] in Hres, Hout.
    rewrite IHr, IHo, Hres, Hout, <- app_assoc. auto.
Qed.

Lemma scenarios_run_names (cases : list test_case) (st st1 : state W E)
    (rs : list test_result) :
  scenarios_run cases st rs st1 -> map r_test_case rs = map tc_name cases.
Proof.
  induction 1 as [st|tc rest st st1 st2 res rs Hrun _ IH]; [reflexivity|].
  destruct (execute_login_test_total tc st)
    as (res' & st1' & Hrun' & _ & _ & Hname & _).
  rewrite Hrun in Hrun'. injection Hrun' as <- <-.
  simpl. rewrite Hname, IH. reflexivity.
Qed.

(** C5: a scenario never raises: whatever its [try] block raises becomes
    a result with status ERROR that carries the text of the exception,
    and the next scenarios run; the loop over any list of scenarios
    executes every scenario, each in the state the one before left, adds
    their results to the results held, one per scenario and in order, and
    is followed by a report as soon as there is a scenario; and the batch
    of the program always returns, with the results of its four scenarios
    added and the statistics of the report printed, whether or not
    scenarios error. *)
Theorem batch_always_completes (st : state W E) :
  (forall tc st0,
      exists res st1,
        execute_login_test tc st0 = (inr res, st1)
        /\ forall e s,
             login_test_body tc st0 = (inl e, s) ->
             st1 = s
             /\ r_status res = "ERROR" /\ r_error res = Some (str_exn e))
  /\ (forall cases st0,
        exists rs st1,
          run_test_cases cases st0 = (inr tt, st1)
          /\ scenarios_run cases st0 rs st1
          /\ results st1 = (results st0 ++ rs)%list
          /\ map r_test_case rs = map tc_name cases
          /\ (cases <> [] ->
              exists r,
                compute_report (results st1) = inr r
                /\ (run_test_cases cases ;;; generate_test_report) st0
                   = (inr tt,
                      mk_state (world st1) (results st1) (trace st1)
                        (stdout st0 ++ report_lines r)%list)))
  /\ (exists rs r st1 st2,
        scenarios_run test_cases st rs st1
        /\ test_login_scenarios st = (inr tt, st2)
        /\ st2 = mk_state (world st1) (results st1) (trace st1)
                   (stdout st ++ report_lines r)%list
        /\ results st2 = (results st ++ rs)%list
        /\ List.length rs = 4
        /\ map r_test_case rs = map tc_name test_cases
        /\ compute_report (results st2) = inr r
        /\ stdout st2 = (stdout st ++ report_lines r)%list
        /\ ((forall x, In x rs -> r_status x = "ERROR") ->
            results st = [] ->
            error_tests r = 4 /\ passed_tests r = 0
            /\ Float.format_1f (success_rate r) = "0.0")).
Proof.
  split; [|split].
  - intros tc st0.
    destruct (execute_login_test_total tc st0)
      as (res & st1 & Hrun & _ & _ & _ & _ & _ & Herr).
    exists res, st1. split; [exact Hrun|].
    intros e s Hbody. destruct (Herr e s Hbody) as (H0 & H1 & _ & H2). auto.
  - intros cases st0.
    destruct (run_test_cases_chain cases st0) as (rs & st1 & Hrun & Hchain).
    destruct (scenarios_run_results cases st0 st1 rs Hchain) as [Hres Hout].
    pose proof (scenarios_run_names cases st0 st1 rs Hchain) as Hn.
    exists rs, st1. do 4 (split; [assumption|]).
    intros Hcases.
    assert (Hne : results st1 <> []).
    { rewrite Hres. destruct cases; [congruence|]. destruct rs; [discriminate Hn|].
      intros H. apply app_eq_nil in H. destruct H; discriminate. }
    destruct (generate_test_report_nonempty st1 Hne) as (r & Hr & Hgen).
    exists r. split; [exact Hr|].
    unfold bind. rewrite Hrun, Hgen, Hout. reflexivity.
  - destruct (run_test_cases_chain test_cases st) as (rs & st1 & Hrun & Hchain).
    destruct (scenarios_run_results test_cases st st1 rs Hchain) as [Hres Hout].
    pose proof (scenarios_run_names test_cases st st1 rs Hchain) as Hnames.
    assert (Hlen : List.length rs = 4)
      by (rewrite <- (length_map r_test_case), Hnames; reflexivity).
    assert (Hne : results st1 <> []).
    { rewrite Hres. destruct rs; [discriminate Hlen|].
      intros H. apply app_eq_nil in H. destruct H; discriminate. }
    destruct (generate_test_report_nonempty st1 Hne) as (r & Hr & Hgen).
    eexists rs, r, st1, _. split; [exact Hchain|].
    unfold test_login_scenarios, bind. rewrite Hrun, Hgen, Hout.
    split; [reflexivity|]. split; [reflexivity|]. cbn [results stdout].
    do 5 (split; [congruence|]).
    intros Herr Hnil. rewrite Hres, Hnil in Hr. simpl in Hr.
    do 5 (destruct rs as [|? rs]; try discriminate Hlen).
    rewrite compute_report_nonempty in Hr by discriminate.
    injection Hr as <-.
    cbn [error_tests passed_tests success_rate].
    rewrite !with_status_cons.
    rewrite !Herr by (simpl; auto 6).
    repeat split.
Qed.

End BatchFacts.

(** C4 on the stub: the report of a fresh object, and the report after
    one result. *)
Lemma report_fails_on_empty_only_witness :
  generate_test_report (Stub.fresh Stub.login_page)
  = (inl (KeyError "status"), Stub.fresh Stub.login_page)
  /\ fst (generate_test_report
            (mk_state (E:=Stub.field) Stub.login_page [mk_result "t" "u" "success" "success" "PASS" None "now"]
               [] []))
     = inr tt.
Proof.
  split.
  - destruct (report_fails_on_empty_only (drv:=Stub.driver) (Stub.fresh Stub.login_page))
      as [H _].
    destruct (H eq_refl) as (_ & H2 & _). exact H2.
  - destruct (report_fails_on_empty_only (drv:=Stub.driver)
                (mk_state (E:=Stub.field) Stub.login_page
                   [mk_result "t" "u" "success" "success" "PASS" None "now"] [] []))
      as [_ H].
    destruct H as (r & _ & H2); [discriminate|]. rewrite H2. reflexivity.
Defined.

(** C5 on the stub: when the browser cannot reach the page, every
    scenario errors with the text of the navigation error, after four
    navigations, the batch returns and the report is printed; on a page
    that behaves the four scenarios pass. *)
Lemma batch_always_completes_witness :
  (exists st2,
      test_login_scenarios (Stub.fresh Stub.offline_page) = (inr tt, st2)
      /\ map r_status (results st2) = ["ERROR"; "ERROR"; "ERROR"; "ERROR"]
      /\ map r_error (results st2)
         = repeat (Some "Message: unknown error: net::ERR_CONNECTION_REFUSED") 4
      /\ trace st2 = repeat (CGet "https://example.com/login") 4
      /\ exists r,
           compute_report (results st2) = inr r
           /\ error_tests r = 4
           /\ Float.format_1f (success_rate r) = "0.0")
  /\ (exists rs st1,
        scenarios_run test_cases (Stub.fresh Stub.login_page) rs st1
        /\ map r_status rs = ["PASS"; "PASS"; "PASS"; "PASS"]
        /\ map r_actual rs = ["success"; "failure"; "failure"; "failure"]
        /\ List.length (trace st1) = 88).
Proof.
  split.
  - destruct (batch_always_completes (drv:=Stub.driver) (Stub.fresh Stub.offline_page))
      as (_ & _ & rs & r & st1 & st2 & _ & Hrun & _ & Hres & _ & _ & Hr & _ & Herr).
    exists st2. split; [exact Hrun|].
    vm_compute in Hrun. injection Hrun as <-.
    simpl in Hres. subst rs.
    split; [reflexivity|]. split; [reflexivity|]. split; [reflexivity|].
    exists r. split; [exact Hr|].
    destruct Herr as (H1 & _ & H3).
    + intros x Hx. simpl in Hx.
      destruct Hx as [<-|[<-|[<-|[<-|[]]]]]; reflexivity.
    + reflexivity.
    + auto.
  - destruct (batch_always_completes (drv:=Stub.driver) (Stub.fresh Stub.login_page))
      as (_ & _ & rs & r & st1 & st2 & Hchain & Hrun & Hst2 & Hres & _).
    exists rs, st1. split; [exact Hchain|].
    vm_compute in Hrun. rewrite Hst2 in Hrun, Hres. cbn [results] in Hres.
    injection Hrun as Hw Hr Ht _.
    rewrite <- Hr in Hres. unfold Stub.fresh in Hres. cbn [results app] in Hres.
    subst rs.
    rewrite <- Ht. split; [reflexivity|]. split; reflexivity.
Defined.

(** * Further properties *)

(** ** Element location: unexpected errors *)

Section LocationErrors.

Context {W E : Type} {drv : WebDriver W E}.

Lemma try_selectors_probe_error
    (pre : list string) (selector : string) (post : list string)
    (st : state W E) (w' w'' : W) (e : exn) :
  all_time_out pre (world st) = Some w' ->
  wait_presence_css selector w' = (inl e, w'') ->
  is_timeout e = false ->
  try_selectors (pre ++ selector :: post) st
  = (inl e, advanced st w'' (map CWaitCss (pre ++ [selector]))).
Proof.
  revert st; induction pre as [|p pre IH]; intros st Hpre Hs He.
  - simpl in Hpre. injection Hpre as <-.
    simpl app. rewrite try_selectors_cons, Hs, He. reflexivity.
  - simpl app. rewrite try_selectors_cons. simpl in Hpre.
    destruct (wait_presence_css p (world st)) as [[x|x] w0]; [|discriminate].
    destruct x; try discriminate. simpl is_timeout. cbv iota.
    rewrite (IH (advanced st w0 [CWaitCss p]) Hpre Hs He).
    rewrite advanced_advanced. reflexivity.
Qed.

(** X1: a candidate probe that raises anything but a TimeoutException
    ends the resolution with that exception: the candidates after it and
    the two direct lookups are not tried. *)
Theorem probe_error_aborts_resolution
    (role : string) (hints : list string) (st : state W E)
    (pre : list string) (selector : string) (post : list string)
    (w' w'' : W) (e : exn) :
  generate_possible_selectors role hints = (pre ++ selector :: post)%list ->
  all_time_out pre (world st) = Some w' ->
  wait_presence_css selector w' = (inl e, w'') ->
  is_timeout e = false ->
  find_element_with_ai role hints st
  = (inl e, advanced st w'' (map CWaitCss (pre ++ [selector]))).
Proof.
  intros Hc Hpre Hs He. unfold find_element_with_ai, bind. rewrite Hc.
  rewrite (try_selectors_probe_error pre selector post st w' w'' e Hpre Hs He).
  reflexivity.
Qed.

(** X2: after the candidates timed out, a direct lookup that raises
    anything but a NoSuchElementException ends the resolution with that
    exception, unchanged: a failing lookup by id is not followed by the
    lookup by name, and a failing lookup by name is not turned into the
    exception that names the role. *)
Theorem lookup_error_aborts_resolution
    (role : string) (hints : list string) (st : state W E) (w1 : W) :
  let candidates := generate_possible_selectors role hints in
  all_time_out candidates (world st) = Some w1 ->
  (forall e w2,
      find_element_by_id role w1 = (inl e, w2) ->
      is_no_such_element e = false ->
      find_element_with_ai role hints st
      = (inl e, advanced st w2 (map CWaitCss candidates ++ [CFindId role])%list))
  /\ (forall msg w2 e w3,
        find_element_by_id role w1 = (inl (NoSuchElementException msg), w2) ->
        find_element_by_name role w2 = (inl e, w3) ->
        is_no_such_element e = false ->
        find_element_with_ai role hints st
        = (inl e,
           advanced st w3
             (map CWaitCss candidates ++ [CFindId role; CFindName role])%list)).
Proof.
  intros candidates Hall.
  pose proof (find_element_after_timeouts role hints st w1 Hall) as Hfind.
  fold candidates in Hfind.
  rewrite fallback_lookup_eq in Hfind. simpl world in Hfind.
  split.
  - intros e w2 Hid He. rewrite Hfind, Hid, He.
    rewrite advanced_advanced. reflexivity.
  - intros msg w2 e w3 Hid Hname He. rewrite Hfind, Hid. simpl.
    rewrite Hname, He, advanced_advanced. reflexivity.
Qed.

End LocationErrors.

(** X1 on the browser that stops answering after three calls: the
    fourth candidate for the login button crashes. *)
Lemma probe_error_aborts_resolution_witness :
  find_element_with_ai "login" ["id"; "class"; "value"] (Flaky.fresh 3)
  = (inl Flaky.crash,
     advanced (Flaky.fresh 3) 0
       (map CWaitCss (firstn 4 (generate_possible_selectors "login" ["id"; "class"; "value"])))).
Proof.
  exact (probe_error_aborts_resolution (drv:=Flaky.driver)
           "login" ["id"; "class"; "value"] (Flaky.fresh 3)
           (firstn 3 (generate_possible_selectors "login" ["id"; "class"; "value"]))
           "#login"
           (skipn 4 (generate_possible_selectors "login" ["id"; "class"; "value"]))
           0 0 Flaky.crash eq_refl eq_refl eq_refl eq_refl).
Defined.

(** X2 on the browser that stops answering after the fifteen candidates,
    and after the lookup by id. *)
Lemma lookup_error_aborts_resolution_witness :
  let probes := map (CWaitCss (E:=unit))
                  (generate_possible_selectors "login" ["id"; "class"; "value"]) in
  find_element_with_ai "login" ["id"; "class"; "value"] (Flaky.fresh 15)
  = (inl Flaky.crash, advanced (Flaky.fresh 15) 0 (probes ++ [CFindId "login"])%list)
  /\ find_element_with_ai "login" ["id"; "class"; "value"] (Flaky.fresh 16)
     = (inl Flaky.crash,
        advanced (Flaky.fresh 16) 0 (probes ++ [CFindId "login"; CFindName "login"])%list).
Proof.
  cbv zeta. split.
  - destruct (lookup_error_aborts_resolution (drv:=Flaky.driver)
                "login" ["id"; "class"; "value"] (Flaky.fresh 15) 0 eq_refl) as [H _].
    exact (H Flaky.crash 0 eq_refl eq_refl).
  - destruct (lookup_error_aborts_resolution (drv:=Flaky.driver)
                "login" ["id"; "class"; "value"] (Flaky.fresh 16) 1 eq_refl) as [_ H].
    exact (H "Message: no such element" 0 Flaky.crash 0 eq_refl eq_refl eq_refl).
Defined.

(** ** Scenario execution: order of the driver calls *)

Section ScenarioCalls.

Context {W E : Type} {drv : WebDriver W E}.

Lemma bind_split {A B} (m : M W E A) (k : A -> M W E B) (st : state W E) :
  bind m k st
  = match m st with
    | (inl e, st') => (inl e, st')
    | (inr a, st') => k a st'
    end.
Proof. reflexivity. Qed.

Lemma driver_call_trace {A} (c : call E) (op : W -> (exn + A) * W)
    (st st' : state W E) (r : exn + A) :
  driver_call c op st = (r, st') -> trace st' = (trace st ++ [c])%list.
Proof.
  unfold driver_call. destruct (op (world st)) as [r0 w'].
  intros H. injection H as _ <-. reflexivity.
Qed.

Lemma forallb_location_probes (selectors : list string) :
  forallb (is_location (E:=E)) (map CWaitCss selectors) = true.
Proof. induction selectors; simpl; auto. Qed.

(** The resolver only looks for elements. *)
Lemma find_element_trace (role : string) (hints : list string) (st st' : state W E)
    (r : exn + E) :
  find_element_with_ai role hints st = (r, st') ->
  exists locs, trace st' = (trace st ++ locs)%list /\ forallb is_location locs = true.
Proof.
  unfold find_element_with_ai. rewrite bind_split.
  destruct (try_selectors_linear (generate_possible_selectors role hints) st)
    as (k & _ & Htrace & _).
  destruct (try_selectors (generate_possible_selectors role hints) st)
    as [[e|[element|]] st1]; simpl in Htrace.
  - intros H. injection H as _ <-. eexists. split; [exact Htrace|].
    apply forallb_location_probes.
  - unfold ret. intros H. injection H as _ <-. eexists. split; [exact Htrace|].
    apply forallb_location_probes.
  - rewrite fallback_lookup_eq.
    destruct (find_element_by_id role (world st1)) as [[e|element] w2].
    + destruct (is_no_such_element e).
      * destruct (find_element_by_name role w2) as [[e'|element] w3];
          intros H; injection H as _ <-; simpl; rewrite Htrace, <- app_assoc;
          eexists; (split; [reflexivity|]);
          rewrite forallb_app, forallb_location_probes; reflexivity.
      * intros H; injection H as _ <-; simpl; rewrite Htrace, <- app_assoc.
        eexists; (split; [reflexivity|]).
        rewrite forallb_app, forallb_location_probes; reflexivity.
    + intros H; injection H as _ <-; simpl; rewrite Htrace, <- app_assoc.
      eexists; (split; [reflexivity|]).
      rewrite forallb_app, forallb_location_probes; reflexivity.
Qed.

Lemma determine_login_result_trace (st st' : state W E) (r : exn + string) :
  determine_login_result st = (r, st') ->
  (trace st' = (trace st ++ [CCurrentUrl; CPageSource])%list)
  \/ (trace st' = (trace st ++ [CCurrentUrl])%list /\ exists e, r = inl e).
Proof.
  unfold determine_login_result. rewrite bind_split.
  destruct (driver_call CCurrentUrl drv_current_url st) as [[e|u] st1] eqn:H1;
    apply driver_call_trace in H1.
  - intros H. injection H as <- <-. right. eauto.
  - rewrite bind_split.
    destruct (driver_call CPageSource drv_page_source st1) as [[e|s] st2] eqn:H2;
      apply driver_call_trace in H2; unfold ret;
      intros H; injection H as _ <-; left;
      rewrite H2, H1, <- app_assoc; reflexivity.
Qed.

Lemma sleep_eq (seconds : nat) (st : state W E) :
  sleep seconds st
  = (inr tt, advanced st (time_sleep seconds (world st)) [CSleep seconds]).
Proof. reflexivity. Qed.

Lemma login_test_body_parts (tc : test_case) :
  login_test_body tc
  = (driver_call (CGet "https://example.com/login") (drv_get "https://example.com/login") ;;;
     username_field <- find_element_with_ai "username" ["id"; "name"; "placeholder"] ;;
     password_field <- find_element_with_ai "password" ["id"; "name"; "type"] ;;
     login_button <- find_element_with_ai "login" ["id"; "class"; "value"] ;;
     interaction_part tc username_field password_field login_button).
Proof. reflexivity. Qed.

Ltac call_step H :=
  rewrite bind_split;
  match goal with
  | |- context [match ?m ?s with _ => _ end] =>
      destruct (m s) as [[?e|?a] ?s] eqn:H; apply driver_call_trace in H
  end.

Ltac close_prefix :=
  intros Hrun; injection Hrun as <- <-;
  repeat match goal with
         | H : trace _ = _ |- _ => rewrite H; clear H
         end;
  rewrite <- ?app_assoc; simpl;
  eexists _, _; split; [reflexivity|]; split; [reflexivity|];
  intros ? ?; discriminate.

(** Once the controls are resolved, the driver calls are a prefix of the
    script, the whole script when nothing is raised. *)
Lemma interaction_part_trace
    (tc : test_case) (u p b : E) (st st' : state W E) (r : exn + test_result) :
  interaction_part tc u p b st = (r, st') ->
  exists acts rest,
    trace st' = (trace st ++ acts)%list
    /\ interaction_script tc u p b = (acts ++ rest)%list
    /\ (forall res, r = inr res -> rest = []).
Proof.
  unfold interaction_part, interaction_script.
  call_step H1; [close_prefix|].
  call_step H2; [close_prefix|].
  call_step H3; [close_prefix|].
  call_step H4; [close_prefix|].
  call_step H5; [close_prefix|].
  rewrite bind_split, sleep_eq, bind_split.
  destruct (determine_login_result _) as [[e|actual] s5] eqn:H7;
    apply determine_login_result_trace in H7; simpl in H7.
  - destruct H7 as [H7|[H7 _]]; close_prefix.
  - destruct H7 as [H7|[_ [e H7]]]; [|discriminate H7].
    unfold bind, strftime, ret.
    intros Hrun; injection Hrun as _ <-.
    rewrite H7, H5, H4, H3, H2, H1. rewrite <- !app_assoc. simpl.
    eexists _, []. split; [reflexivity|]. split; [reflexivity|]. reflexivity.
Qed.

(** X3: the driver calls of a scenario are, in this order, the
    navigation, calls that look for elements, and interactions.  When the
    navigation or one of the three look-ups raises, there is no
    interaction at all: nothing is typed or clicked before the three
    controls are resolved.  When the look-ups return the elements u, p and
    b, the calls up to there are the navigation and the look-ups, and the
    interactions are a prefix of the script on these very elements (clear
    and type the user name in u, clear and type the password in p, click
    b, sleep, read the URL, read the page), the whole script when the
    scenario raises nothing. *)
Theorem scenario_calls_in_order (tc : test_case) (st : state W E) :
  exists locs acts,
    trace (snd (execute_login_test tc st))
    = (trace st ++ CGet "https://example.com/login" :: locs ++ acts)%list
    /\ forallb is_location locs = true
    /\ ((forall u p b s3, ~ controls_resolved st u p b s3) -> acts = [])
    /\ (forall u p b s3,
          controls_resolved st u p b s3 ->
          trace s3 = (trace st ++ CGet "https://example.com/login" :: locs)%list
          /\ exists rest,
               interaction_script tc u p b = (acts ++ rest)%list
               /\ (~ scenario_raised tc st -> rest = []))
    /\ (~ scenario_raised tc st -> exists u p b s3, controls_resolved st u p b s3).
Proof.
  rewrite execute_login_test_eq. unfold scenario_raised, controls_resolved.
  assert (Hsame : forall (x : (exn + test_result) * state W E),
             trace (snd (match x with
                         | (inr res, st') => (inr res, st')
                         | (inl e, st') =>
                             (inr (mk_result (tc_name tc) (tc_username tc)
                                     (tc_expected_result tc) "error" "ERROR"
                                     (Some (str_exn e)) (time_strftime (world st'))),
                              st')
                         end)) = trace (snd x))
    by (intros [[e|res] s]; reflexivity).
  rewrite Hsame. clear Hsame.
  rewrite login_test_body_parts.
  rewrite bind_split.
  destruct (driver_call _ _ st) as [[e|[]] s0] eqn:H0;
    pose proof (driver_call_trace _ _ _ _ _ H0) as T0.
  { exists [], []. simpl. rewrite T0. split; [reflexivity|]. split; [reflexivity|].
    split; [reflexivity|].
    split; [intros u p b s3 (x0 & x1 & x2 & G0 & _); discriminate G0|].
    intros Hno. exfalso. apply Hno. eauto. }
  rewrite bind_split.
  destruct (find_element_with_ai "username" _ s0) as [[e|u] s1] eqn:H1;
    destruct (find_element_trace _ _ _ _ _ H1) as (l1 & T1 & Hl1).
  { exists l1, []. simpl. rewrite T1, T0, app_nil_r, <- app_assoc.
    split; [reflexivity|]. split; [exact Hl1|]. split; [reflexivity|].
    split; [|intros Hno; exfalso; apply Hno; eauto].
    intros u p b s3 (x0 & x1 & x2 & G0 & G1 & _).
    injection G0 as <-. rewrite H1 in G1. discriminate G1. }
  rewrite bind_split.
  destruct (find_element_with_ai "password" _ s1) as [[e|p] s2] eqn:H2;
    destruct (find_element_trace _ _ _ _ _ H2) as (l2 & T2 & Hl2).
  { exists (l1 ++ l2)%list, []. simpl.
    rewrite T2, T1, T0, app_nil_r, <- !app_assoc, forallb_app, Hl1, Hl2.
    split; [reflexivity|]. split; [reflexivity|]. split; [reflexivity|].
    split; [|intros Hno; exfalso; apply Hno; eauto].
    intros u' p' b' s3 (x0 & x1 & x2 & G0 & G1 & G2 & _).
    injection G0 as <-. rewrite H1 in G1. injection G1 as <- <-.
    rewrite H2 in G2. discriminate G2. }
  rewrite bind_split.
  destruct (find_element_with_ai "login" _ s2) as [[e|b] s3] eqn:H3;
    destruct (find_element_trace _ _ _ _ _ H3) as (l3 & T3 & Hl3).
  { exists (l1 ++ l2 ++ l3)%list, []. simpl.
    rewrite T3, T2, T1, T0, app_nil_r, <- !app_assoc, !forallb_app, Hl1, Hl2, Hl3.
    split; [reflexivity|]. split; [reflexivity|]. split; [reflexivity|].
    split; [|intros Hno; exfalso; apply Hno; eauto].
    intros u' p' b' s3' (x0 & x1 & x2 & G0 & G1 & G2 & G3).
    injection G0 as <-. rewrite H1 in G1. injection G1 as <- <-.
    rewrite H2 in G2. injection G2 as <- <-.
    rewrite H3 in G3. discriminate G3. }
  destruct (interaction_part tc u p b s3) as [r s4] eqn:H4.
  destruct (interaction_part_trace tc u p b s3 s4 r H4) as (acts & rest & Ht & Hscript & Hfull).
  exists (l1 ++ l2 ++ l3)%list, acts. simpl.
  rewrite Ht, T3, T2, T1, T0, <- !app_assoc, !forallb_app, Hl1, Hl2, Hl3. simpl.
  split; [reflexivity|]. split; [reflexivity|]. split; [|split].
  - intros Hnone. exfalso. apply (Hnone u p b s3). exists s0, s1, s2. auto.
  - intros u' p' b' s3' (x0 & x1 & x2 & G0 & G1 & G2 & G3).
    injection G0 as <-. rewrite H1 in G1. injection G1 as <- <-.
    rewrite H2 in G2. injection G2 as <- <-.
    rewrite H3 in G3. injection G3 as <- <-.
    split; [rewrite T3, T2, T1, T0, <- !app_assoc; reflexivity|].
    exists rest. split; [exact Hscript|].
    intros Hno. destruct r as [e|res].
    + exfalso. apply Hno. eauto.
    + apply (Hfull res eq_refl).
  - intros _. exists u, p, b, s3, s0, s1, s2. auto.
Qed.

(** X4: when the page is reached and the user-name control is found by
    no candidate and by neither direct lookup, the scenario ends there:
    its result has status ERROR and the message that names the role, and
    the driver calls are the navigation, the fifteen candidates and the
    two lookups; the password field and the button are not looked for. *)
Theorem username_not_found_ends_scenario
    (tc : test_case) (st : state W E) (w0 w1 w2 w3 : W) (msg msg' : string) :
  let candidates := generate_possible_selectors "username" ["id"; "name"; "placeholder"] in
  drv_get "https://example.com/login" (world st) = (inr tt, w0) ->
  all_time_out candidates w0 = Some w1 ->
  find_element_by_id "username" w1 = (inl (NoSuchElementException msg), w2) ->
  find_element_by_name "username" w2 = (inl (NoSuchElementException msg'), w3) ->
  execute_login_test tc st
  = (inr (mk_result (tc_name tc) (tc_username tc) (tc_expected_result tc) "error" "ERROR"
            (Some "Could not locate username element") (time_strftime w3)),
     advanced st w3
       (CGet "https://example.com/login"
        :: map CWaitCss candidates ++ [CFindId "username"; CFindName "username"])%list).
Proof.
  intros candidates Hget Hall Hid Hname.
  rewrite execute_login_test_eq, login_test_body_parts, bind_split.
  unfold driver_call at 1. rewrite Hget.
  rewrite bind_split.
  rewrite (find_element_after_timeouts "username" ["id"; "name"; "placeholder"]
             (mk_state w0 (results st) (trace st ++ [CGet "https://example.com/login"])
                (stdout st)) w1 Hall).
  rewrite fallback_lookup_eq. simpl world. rewrite Hid. simpl. rewrite Hname. simpl.
  unfold advanced. simpl. rewrite <- !app_assoc. reflexivity.
Qed.

(** X5: a scenario whose expected result is neither success nor failure
    never passes: the classifier answers only these two words and is
    compared with the expected result as written. *)
Theorem unknown_expected_never_passes (tc : test_case) (st : state W E) :
  tc_expected_result tc <> "success" ->
  tc_expected_result tc <> "failure" ->
  exists res st',
    execute_login_test tc st = (inr res, st')
    /\ r_status res <> "PASS"
    /\ (r_status res = "FAIL" \/ r_status res = "ERROR").
Proof.
  intros Hs Hf. rewrite execute_login_test_eq.
  destruct (login_test_body tc st) as [[e|res] st'] eqn:Hbody.
  - eexists _, _. split; [reflexivity|]. simpl. split; [discriminate | auto].
  - exists res, st'. split; [reflexivity|].
    destruct (login_test_body_returns tc st st' res Hbody)
      as (_ & _ & Hexp & Hactual & Hstatus & _).
    rewrite Hstatus.
    destruct (String.eqb_spec (r_actual res) (r_expected res)) as [Heq|Hne].
    + exfalso. rewrite Hexp in Heq. destruct Hactual; congruence.
    + split; [discriminate | auto].
Qed.

End ScenarioCalls.

(** X3 on the stub: a scenario on a page that behaves runs the whole
    script on the three controls found, after the navigation and thirteen
    look-ups; on a page without controls nothing is typed or clicked. *)
Lemma scenario_calls_in_order_witness :
  let tc := mk_case "Valid Credentials" "testuser" "correctpassword" "success" in
  (exists locs,
      trace (snd (execute_login_test tc (Stub.fresh Stub.login_page)))
      = (CGet "https://example.com/login"
         :: locs ++ interaction_script tc Stub.UserField Stub.PassField Stub.LoginButton)%list
      /\ List.length locs = 13 /\ forallb is_location locs = true)
  /\ (exists locs,
        trace (snd (execute_login_test tc (Stub.fresh Stub.empty_page)))
        = (CGet "https://example.com/login" :: locs)%list
        /\ forallb is_location locs = true).
Proof.
  cbv zeta. split.
  - destruct (scenario_calls_in_order (drv:=Stub.driver)
                (mk_case "Valid Credentials" "testuser" "correctpassword" "success")
                (Stub.fresh Stub.login_page))
      as (locs & acts & Htrace & Hlocs & _ & Hres & _).
    pose (s0 := snd (driver_call (E:=Stub.field) (CGet "https://example.com/login")
                       (drv_get "https://example.com/login") (Stub.fresh Stub.login_page))).
    pose (s1 := snd (find_element_with_ai "username" ["id"; "name"; "placeholder"] s0)).
    pose (s2 := snd (find_element_with_ai "password" ["id"; "name"; "type"] s1)).
    pose (s3 := snd (find_element_with_ai "login" ["id"; "class"; "value"] s2)).
    assert (Hc : controls_resolved (drv:=Stub.driver) (Stub.fresh Stub.login_page)
                   Stub.UserField Stub.PassField Stub.LoginButton s3).
    { exists s0, s1, s2. split; [|split; [|split]]; vm_compute; reflexivity. }
    assert (Hlen : List.length (trace s3) = 14) by (vm_compute; reflexivity).
    destruct (Hres _ _ _ _ Hc) as (Ht3 & rest & Hscript & Hfull).
    assert (Hrest : rest = []).
    { apply Hfull. intros (e & s & H). vm_compute in H. discriminate H. }
    rewrite Hrest, app_nil_r in Hscript.
    exists locs. rewrite Hscript. split; [exact Htrace|]. split; [|exact Hlocs].
    rewrite Ht3, length_app in Hlen. cbn [List.length Stub.fresh trace] in Hlen. lia.
  - destruct (scenario_calls_in_order (drv:=Stub.driver)
                (mk_case "Valid Credentials" "testuser" "correctpassword" "success")
                (Stub.fresh Stub.empty_page))
      as (locs & acts & Htrace & Hlocs & Hnone & _).
    assert (Hacts : acts = []).
    { apply Hnone. intros u p b s3 (s0 & s1 & s2 & G0 & G1 & _).
      assert (Hs0 : s0 = snd (driver_call (E:=Stub.field) (CGet "https://example.com/login")
                                (drv_get "https://example.com/login")
                                (Stub.fresh Stub.empty_page)))
        by (rewrite G0; reflexivity).
      rewrite Hs0 in G1. vm_compute in G1. discriminate G1. }
    rewrite Hacts, app_nil_r in Htrace.
    exists locs. split; [exact Htrace | exact Hlocs].
Defined.

(** X4 on the stub page without controls. *)
Lemma username_not_found_ends_scenario_witness :
  exists res st',
    execute_login_test (mk_case "Empty Credentials" "" "" "failure")
      (Stub.fresh Stub.empty_page) = (inr res, st')
    /\ r_status res = "ERROR"
    /\ r_error res = Some "Could not locate username element"
    /\ List.length (trace st') = 18.
Proof.
  eexists _, _. split.
  - exact (username_not_found_ends_scenario (drv:=Stub.driver)
             (mk_case "Empty Credentials" "" "" "failure") (Stub.fresh Stub.empty_page)
             (Stub.load "https://example.com/login" Stub.empty_page)
             (Stub.tick 150 (Stub.load "https://example.com/login" Stub.empty_page))
             _ _ "Message: no such element" "Message: no such element"
             eq_refl eq_refl eq_refl eq_refl).
  - repeat split.
Defined.

(** X5 on the stub: the valid credentials reach the dashboard, but the
    expected result is written with a capital. *)
Lemma unknown_expected_never_passes_witness :
  exists res st',
    execute_login_test (mk_case "Valid Credentials" "testuser" "correctpassword" "Success")
      (Stub.fresh Stub.login_page) = (inr res, st')
    /\ r_actual res = "success" /\ r_status res = "FAIL".
Proof.
  destruct (unknown_expected_never_passes (drv:=Stub.driver)
              (mk_case "Valid Credentials" "testuser" "correctpassword" "Success")
              (Stub.fresh Stub.login_page))
    as (res & st' & Hrun & Hnot & Hstatus); [discriminate | discriminate |].
  exists res, st'. split; [exact Hrun|].
  vm_compute in Hrun. injection Hrun as <- _. split; reflexivity.
Defined.

(** ** The report after a batch *)

Section ReportAfterBatch.

Context {W E : Type} {drv : WebDriver W E}.

(** X6: a batch adds its four results to those the object already holds
    ([self.results] is never emptied), and its report counts all of
    them: the total is the number held before plus four, and, when the
    results held before carry statuses of the program, the numbers of
    passed, failed and errored results add up to the total, and the
    results held after carry statuses of the program again. *)
Theorem report_counts_add_up (st : state W E) :
  Forall program_status (results st) ->
  exists r st1,
    test_login_scenarios st = (inr tt, st1)
    /\ compute_report (results st1) = inr r
    /\ total_tests r = List.length (results st) + 4
    /\ passed_tests r + failed_tests r + error_tests r = total_tests r
    /\ Forall program_status (results st1).
Proof.
  intros Hold.
  destruct (run_test_cases_total test_cases st)
    as (rs & st1 & Hrun & Hres & Hout & Hnames & _ & Hnew).
  assert (Hlen : List.length rs = 4)
    by (rewrite <- (length_map r_test_case), Hnames; reflexivity).
  assert (Hall : Forall program_status (results st1))
    by (rewrite Hres; apply Forall_app; split; assumption).
  assert (Hne : results st1 <> []).
  { rewrite Hres. destruct rs; [discriminate Hlen|].
    intros H. apply app_eq_nil in H. destruct H; discriminate. }
  destruct (generate_test_report_nonempty st1 Hne) as (r & Hr & Hgen).
  eexists r, _. unfold test_login_scenarios, bind. rewrite Hrun, Hgen.
  split; [reflexivity|]. cbn [results].
  split; [exact Hr|].
  rewrite (compute_report_nonempty _ Hne) in Hr. injection Hr as <-.
  cbn [total_tests passed_tests failed_tests error_tests].
  split; [rewrite Hres, length_app, Hlen; reflexivity|].
  split; [apply with_status_partition, Hall | exact Hall].
Qed.

(** X7: what is printed for the result of a scenario: two lines when
    nothing was raised, with the check mark exactly when actual equals
    expected; three lines when the scenario raised, with the cross mark,
    the actual value error and, last, the text of the exception. *)
Theorem printed_result_shows_error (tc : test_case) (st : state W E) :
  exists res st',
    execute_login_test tc st = (inr res, st')
    /\ (forall e s,
          login_test_body tc st = (inl e, s) ->
          print_test_result_lines res
          = [ cross_mark ++ " " ++ tc_name tc ++ ": ERROR";
              "   Expected: " ++ tc_expected_result tc ++ ", Actual: error";
              "   Error: " ++ str_exn e ])
    /\ (~ scenario_raised tc st ->
        print_test_result_lines res
        = [ (if String.eqb (r_actual res) (tc_expected_result tc)
             then check_mark ++ " " ++ tc_name tc ++ ": PASS"
             else cross_mark ++ " " ++ tc_name tc ++ ": FAIL");
            "   Expected: " ++ tc_expected_result tc ++ ", Actual: " ++ r_actual res ]).
Proof.
  rewrite execute_login_test_eq. unfold scenario_raised.
  destruct (login_test_body tc st) as [[e|res] st'] eqn:Hbody.
  - eexists _, _. split; [reflexivity|]. split.
    + intros e' s' H. injection H as <- _. reflexivity.
    + intros H. exfalso. apply H. eauto.
  - exists res, st'. split; [reflexivity|]. split; [discriminate|].
    intros _.
    destruct (login_test_body_returns tc st st' res Hbody)
      as (Hname & _ & Hexp & _ & Hstatus & Herr).
    unfold print_test_result_lines. rewrite Herr, Hstatus, Hname, Hexp.
    destruct (String.eqb (r_actual res) (tc_expected_result tc)); reflexivity.
Qed.

End ReportAfterBatch.

(** X6 on the stub: two batches on the same object; the second report
    counts eight results. *)
Lemma report_counts_add_up_witness :
  exists st1 r st2,
    test_login_scenarios (Stub.fresh Stub.login_page) = (inr tt, st1)
    /\ test_login_scenarios st1 = (inr tt, st2)
    /\ compute_report (results st2) = inr r
    /\ total_tests r = 8
    /\ passed_tests r + failed_tests r + error_tests r = 8.
Proof.
  destruct (report_counts_add_up (drv:=Stub.driver) (Stub.fresh Stub.login_page))
    as (r1 & st1 & Hrun1 & _ & _ & _ & Hall1); [constructor|].
  destruct (report_counts_add_up (drv:=Stub.driver) st1 Hall1)
    as (r2 & st2 & Hrun2 & Hr2 & Htotal & Hsum & _).
  exists st1, r2, st2. split; [exact Hrun1|]. split; [exact Hrun2|].
  split; [exact Hr2|].
  assert (Hlen : List.length (results st1) = 4)
    by (vm_compute in Hrun1; injection Hrun1 as <-; reflexivity).
  rewrite Hlen in Htotal. split; [exact Htotal | rewrite Hsum; exact Htotal].
Defined.

(** X7 on the stub: the browser cannot reach the page. *)
Lemma printed_result_shows_error_witness :
  exists res st',
    execute_login_test (mk_case "Valid Credentials" "testuser" "correctpassword" "success")
      (Stub.fresh Stub.offline_page) = (inr res, st')
    /\ print_test_result_lines res
       = [ cross_mark ++ " Valid Credentials: ERROR";
           "   Expected: success, Actual: error";
           "   Error: Message: unknown error: net::ERR_CONNECTION_REFUSED" ].
Proof.
  destruct (printed_result_shows_error (drv:=Stub.driver)
              (mk_case "Valid Credentials" "testuser" "correctpassword" "success")
              (Stub.fresh Stub.offline_page))
    as (res & st' & Hrun & Herr & _).
  exists res, st'. split; [exact Hrun|].
  exact (Herr _ _ eq_refl).
Defined.

(** ** The life of the browser *)

Section MainFacts.

Context {W E : Type} {drv : WebDriver W E} {browser : Browser W}.

(** X8: when the browser does not start, [main] raises what the start
    raised, runs no scenario and quits nothing; when it starts, [main]
    runs the batch on a new object, which adds four results and prints
    the report, then quits the browser exactly once, and returns or
    raises as the quit does. *)
Theorem main_quits_started_browser (w : W) :
  (forall e w',
      chrome_start w = (inl e, w') ->
      main (E:=E) w = (inl e, mk_session (mk_state w' [] [] []) false [CStart]))
  /\ (forall w',
        chrome_start w = (inr tt, w') ->
        exists st1 r rq w2,
          test_login_scenarios (mk_state (E:=E) w' [] [] []) = (inr tt, st1)
          /\ List.length (results st1) = 4
          /\ compute_report (results st1) = inr r
          /\ stdout st1 = report_lines r
          /\ drv_quit (world st1) = (rq, w2)
          /\ main w
             = (rq,
                mk_session (mk_state w2 (results st1) (trace st1) (stdout st1)) true
                  [CStart; CQuit])).
Proof.
  split.
  - intros e w' Hstart. unfold main, init. rewrite Hstart. reflexivity.
  - intros w' Hstart.
    destruct (run_test_cases_total test_cases (mk_state (E:=E) w' [] [] []))
      as (rs & st1 & Hrun & Hres & Hout & Hnames & _ & _).
    simpl in Hres, Hout.
    assert (Hlen : List.length (results st1) = 4)
      by (rewrite Hres, <- (length_map r_test_case), Hnames; reflexivity).
    assert (Hne : results st1 <> [])
      by (intros H; rewrite H in Hlen; discriminate Hlen).
    destruct (generate_test_report_nonempty st1 Hne) as (r & Hr & Hgen).
    destruct (drv_quit (world st1)) as [rq w2] eqn:Hquit.
    eexists _, r, rq, w2.
    assert (Hbatch : test_login_scenarios (mk_state (E:=E) w' [] [] [])
                     = (inr tt,
                        mk_state (world st1) (results st1) (trace st1)
                          (stdout st1 ++ report_lines r)%list))
      by (unfold test_login_scenarios, bind; rewrite Hrun, Hgen; reflexivity).
    split; [exact Hbatch|]. cbn [results stdout world trace].
    split; [exact Hlen|]. split; [exact Hr|].
    split; [rewrite Hout; reflexivity|].
    split; [exact Hquit|].
    unfold main, init. rewrite Hstart. cbn [obj has_driver session_calls].
    rewrite Hbatch. unfold close.
    cbn [has_driver obj world results trace stdout session_calls].
    rewrite Hquit. destruct rq as [e|[]]; reflexivity.
Qed.

End MainFacts.

(** X8 on the stubs: a browser that does not start, and one that does. *)
Lemma main_quits_started_browser_witness :
  main (E:=unit) 0 = (inl Flaky.crash, mk_session (mk_state 0 [] [] []) false [CStart])
  /\ fst (main (E:=Stub.field) Stub.login_page) = inr tt
  /\ session_calls (snd (main (E:=Stub.field) Stub.login_page)) = [CStart; CQuit]
  /\ List.length (results (obj (snd (main (E:=Stub.field) Stub.login_page)))) = 4.
Proof.
  split.
  - destruct (main_quits_started_browser (E:=unit) (drv:=Flaky.driver) 0) as [H _].
    exact (H Flaky.crash 0 eq_refl).
  - destruct (main_quits_started_browser (E:=Stub.field) (drv:=Stub.driver) Stub.login_page)
      as [_ H].
    destruct (H Stub.login_page eq_refl)
      as (st1 & r & rq & w2 & _ & Hlen & _ & _ & Hquit & Hmain).
    rewrite Hmain. cbn [fst snd session_calls obj results].
    injection Hquit as <- _. auto.
Defined.

(** ** Sorting dictionaries *)

Module CodeCompletionFacts.

Import CodeCompletion.

Lemma copy_loop (data acc : list record) :
  fold_left (fun sorted_data item => (sorted_data ++ [item])%list) data acc
  = (acc ++ data)%list.
Proof.
  revert acc; induction data as [|x data IH]; intros acc; simpl.
  - rewrite app_nil_r. reflexivity.
  - rewrite IH, <- app_assoc. reflexivity.
Qed.

Lemma ai_suggested_is_optimized (data : list record) (key : string) :
  ai_suggested_sort_dictionaries data key = optimized_sort_dictionaries data key.
Proof.
  unfold ai_suggested_sort_dictionaries, optimized_sort_dictionaries.
  rewrite copy_loop. reflexivity.
Qed.

Lemma getitem_error (x : record) (key : string) (e : error) :
  getitem x key = inl e -> e = KeyError key.
Proof.
  induction x as [|[k v] x IH]; simpl.
  - intros H. injection H as <-. reflexivity.
  - destruct (String.eqb k key); [discriminate | exact IH].
Qed.

Lemma get_has_key (x : record) (key : string) (default v : value) :
  getitem x key = inr v -> get x key default = v.
Proof. unfold get. intros ->. reflexivity. Qed.

Lemma keyed_ext (f g : record -> error + value) (data : list record) :
  Forall (fun x => f x = g x) data -> keyed f data = keyed g data.
Proof.
  induction 1 as [|x data Hx _ IH]; simpl; [reflexivity|].
  rewrite Hx, IH. reflexivity.
Qed.

Lemma keyed_total (f : record -> value) (data : list record) :
  keyed (fun x => inr (f x)) data = inr (map (fun x => (f x, x)) data).
Proof.
  induction data as [|x data IH]; simpl; [reflexivity|]. rewrite IH. reflexivity.
Qed.

Lemma keyed_getitem_missing (data : list record) (key : string) :
  Exists (fun x => ~ has_key key x) data ->
  keyed (fun x => getitem x key) data = inl (KeyError key).
Proof.
  induction 1 as [x data Hx|x data _ IH]; simpl.
  - destruct (getitem x key) as [e|v] eqn:Hg.
    + rewrite (getitem_error x key e Hg). reflexivity.
    + exfalso. apply Hx. exists v. exact Hg.
  - destruct (getitem x key) as [e|v] eqn:Hg.
    + rewrite (getitem_error x key e Hg). reflexivity.
    + rewrite IH. reflexivity.
Qed.

Lemma comparable_same (keys : list value) (a b : value) :
  comparable keys = true -> In a keys -> In b keys -> is_int a = is_int b.
Proof.
  destruct keys as [|k rest]; [intros _ []|].
  simpl. intros Hc Ha Hb. rewrite forallb_forall in Hc.
  assert (Hk : forall c, k = c \/ In c rest -> is_int k = is_int c).
  { intros c [<-|Hin]; [reflexivity|]. apply Bool.eqb_prop, Hc, Hin. }
  rewrite <- (Hk a Ha), <- (Hk b Hb). reflexivity.
Qed.

(** X9: the three implementations return the same list whenever every
    record has the key; the AI-suggested one, which copies the list and
    sorts the copy, and the optimized one agree on every input. *)
Theorem implementations_agree (data : list record) (key : string) :
  (Forall (has_key key) data ->
   manual_sort_dictionaries data key = optimized_sort_dictionaries data key
   /\ manual_sort_dictionaries data key = ai_suggested_sort_dictionaries data key)
  /\ ai_suggested_sort_dictionaries data key = optimized_sort_dictionaries data key.
Proof.
  split; [|apply ai_suggested_is_optimized].
  intros Hall. rewrite ai_suggested_is_optimized.
  assert (H : manual_sort_dictionaries data key = optimized_sort_dictionaries data key).
  { unfold manual_sort_dictionaries, optimized_sort_dictionaries, sorted.
    rewrite (keyed_ext (fun x => getitem x key) (fun x => inr (get x key (VInt 0))) data);
      [reflexivity|].
    eapply Forall_impl; [|exact Hall].
    intros x [v Hv]. cbv beta. rewrite Hv, (get_has_key x key (VInt 0) v Hv). reflexivity. }
  split; exact H.
Qed.

(** X10: when some record lacks the key, the manual implementation
    raises the KeyError of that key, whatever the other records hold; the
    two implementations with a default never raise a KeyError. *)
Theorem missing_key_raises_in_manual_only (data : list record) (key : string) :
  Exists (fun x => ~ has_key key x) data ->
  manual_sort_dictionaries data key = inl (KeyError key)
  /\ (forall k, optimized_sort_dictionaries data key <> inl (KeyError k))
  /\ (forall k, ai_suggested_sort_dictionaries data key <> inl (KeyError k)).
Proof.
  intros Hmiss. split; [|split].
  - unfold manual_sort_dictionaries, sorted.
    rewrite (keyed_getitem_missing data key Hmiss). reflexivity.
  - intros k. unfold optimized_sort_dictionaries, sorted. rewrite keyed_total.
    destruct (comparable _); discriminate.
  - intros k. rewrite ai_suggested_is_optimized.
    unfold optimized_sort_dictionaries, sorted. rewrite keyed_total.
    destruct (comparable _); discriminate.
Qed.

(** X11: the default of the two implementations with a default is the
    integer 0: when some record lacks the key and another holds a string
    under it, they raise a TypeError. *)
Theorem default_clashes_with_string_keys (data : list record) (key : string) :
  Exists (fun x => ~ has_key key x) data ->
  Exists (str_key key) data ->
  optimized_sort_dictionaries data key = inl TypeError
  /\ ai_suggested_sort_dictionaries data key = inl TypeError.
Proof.
  intros Hmiss Hstr. rewrite ai_suggested_is_optimized.
  assert (H : optimized_sort_dictionaries data key = inl TypeError).
  { unfold optimized_sort_dictionaries, sorted. rewrite keyed_total, map_map. cbn [fst].
    destruct (comparable (map (fun x => get x key (VInt 0)) data)) eqn:Hc; [|reflexivity].
    exfalso.
    apply Exists_exists in Hmiss. destruct Hmiss as (x & Hx & Hnone).
    apply Exists_exists in Hstr. destruct Hstr as (y & Hy & s & Hs).
    assert (Hkx : get x key (VInt 0) = VInt 0).
    { unfold get. destruct (getitem x key) as [e|v] eqn:Hg; [reflexivity|].
      exfalso. apply Hnone. exists v. exact Hg. }
    assert (Hky : get y key (VInt 0) = VStr s) by (apply get_has_key, Hs).
    pose proof (comparable_same _ (get x key (VInt 0)) (get y key (VInt 0)) Hc
                  (in_map _ _ _ Hx) (in_map _ _ _ Hy)) as Hsame.
    rewrite Hkx, Hky in Hsame. discriminate Hsame. }
  split; exact H.
Qed.

(** X9 to X11 on three records. *)
Lemma implementations_agree_witness :
  manual_sort_dictionaries [alice; bob] "salary" = inr [bob; alice]
  /\ ai_suggested_sort_dictionaries [alice; bob] "salary" = inr [bob; alice].
Proof.
  destruct (implementations_agree [alice; bob] "salary") as [H _].
  destruct H as [_ H].
  - repeat constructor; eexists; reflexivity.
  - split; [reflexivity|]. rewrite <- H. reflexivity.
Defined.

Lemma missing_key_raises_in_manual_only_witness :
  manual_sort_dictionaries [alice; carol; bob] "salary" = inl (KeyError "salary")
  /\ optimized_sort_dictionaries [alice; carol; bob] "salary" = inr [carol; bob; alice].
Proof.
  destruct (missing_key_raises_in_manual_only [alice; carol; bob] "salary") as [H _].
  - apply Exists_cons_tl, Exists_cons_hd. intros [v Hv]. discriminate Hv.
  - split; [exact H | reflexivity].
Defined.

Lemma default_clashes_with_string_keys_witness :
  optimized_sort_dictionaries [alice; [("salary", VInt 1)]] "name" = inl TypeError.
Proof.
  destruct (default_clashes_with_string_keys [alice; [("salary", VInt 1)]] "name") as [H _].
  - apply Exists_cons_tl, Exists_cons_hd. intros [v Hv]. discriminate Hv.
  - apply Exists_cons_hd. exists "alice". reflexivity.
  - exact H.
Defined.

(** *** The sort *)

Lemma string_ltb_irrefl (a : string) : String.ltb a a = false.
Proof.
  unfold String.ltb. pose proof (String.compare_antisym a a) as H.
  destruct (String.compare a a); [reflexivity | discriminate H | reflexivity].
Qed.

Lemma string_ltb_asym (a b : string) : String.ltb a b = true -> String.ltb b a = false.
Proof.
  unfold String.ltb. rewrite (String.compare_antisym b a).
  destruct (String.compare a b); simpl; congruence.
Qed.

Lemma ltb_irrefl (a : value) : ltb a a = false.
Proof.
  destruct a; unfold ltb; simpl; [apply Z.ltb_irrefl | apply string_ltb_irrefl].
Qed.

Lemma ltb_asym (a b : value) : ltb a b = true -> ltb b a = false.
Proof.
  destruct a, b; unfold ltb; simpl; try reflexivity.
  - intros H. apply Z.ltb_lt in H. apply Z.ltb_ge. lia.
  - apply string_ltb_asym.
Qed.

Lemma value_eqb_eq (a b : value) : value_eqb a b = true -> a = b.
Proof.
  destruct a, b; simpl; try discriminate.
  - intros H. apply Z.eqb_eq in H. congruence.
  - intros H. apply String.eqb_eq in H. congruence.
Qed.

Lemma lt_same_kind (a b : value) : is_int a = is_int b -> lt a b = inr (ltb a b).
Proof. destruct a, b; simpl; try discriminate; reflexivity. Qed.

Lemma insert_perm (x : value * record) (l : list (value * record)) :
  Permutation (x :: l) (insert x l).
Proof.
  induction l as [|y l IH]; simpl; [reflexivity|].
  destruct (ltb (fst y) (fst x)); [|reflexivity].
  rewrite perm_swap. apply perm_skip, IH.
Qed.

Lemma stable_sort_perm (l : list (value * record)) : Permutation l (stable_sort l).
Proof.
  induction l as [|x l IH]; simpl; [reflexivity|].
  rewrite <- insert_perm. apply perm_skip, IH.
Qed.

Lemma insert_hdrel (a x : value * record) (l : list (value * record)) :
  HdRel key_le a l -> key_le a x -> HdRel key_le a (insert x l).
Proof.
  destruct l as [|y l]; simpl; intros Hl Hx; [constructor; exact Hx|].
  destruct (ltb (fst y) (fst x)); constructor; [|exact Hx].
  inversion Hl; assumption.
Qed.

Lemma insert_sorted (x : value * record) (l : list (value * record)) :
  Sorted key_le l -> Sorted key_le (insert x l).
Proof.
  induction l as [|y l IH]; simpl; intros Hl.
  - repeat constructor.
  - inversion Hl as [|? ? Hsorted Hhd]; subst.
    destruct (ltb (fst y) (fst x)) eqn:Hlt.
    + constructor; [apply IH, Hsorted|].
      apply insert_hdrel; [exact Hhd|]. apply ltb_asym, Hlt.
    + constructor; [exact Hl|]. constructor. exact Hlt.
Qed.

Lemma stable_sort_sorted (l : list (value * record)) : Sorted key_le (stable_sort l).
Proof.
  induction l as [|x l IH]; simpl; [constructor|]. apply insert_sorted, IH.
Qed.

(** Items with the same key keep their order. *)
Lemma filter_insert (v : value) (x : value * record) (l : list (value * record)) :
  filter (fun p => value_eqb (fst p) v) (insert x l)
  = if value_eqb (fst x) v
    then x :: filter (fun p => value_eqb (fst p) v) l
    else filter (fun p => value_eqb (fst p) v) l.
Proof.
  induction l as [|y l IH]; simpl.
  - destruct (value_eqb (fst x) v); reflexivity.
  - destruct (ltb (fst y) (fst x)) eqn:Hlt; simpl.
    + rewrite IH.
      destruct (value_eqb (fst x) v) eqn:Hx; [|reflexivity].
      destruct (value_eqb (fst y) v) eqn:Hy; [|reflexivity].
      apply value_eqb_eq in Hx. apply value_eqb_eq in Hy.
      rewrite Hx, Hy, ltb_irrefl in Hlt. discriminate Hlt.
    + destruct (value_eqb (fst x) v); reflexivity.
Qed.

Lemma filter_stable_sort (v : value) (l : list (value * record)) :
  filter (fun p => value_eqb (fst p) v) (stable_sort l)
  = filter (fun p => value_eqb (fst p) v) l.
Proof.
  induction l as [|x l IH]; simpl; [reflexivity|].
  rewrite filter_insert, IH. reflexivity.
Qed.

Lemma with_key_keyed (key : string) (v : value) (l : list (value * record)) :
  Forall (fun p => getitem (snd p) key = inr (fst p)) l ->
  with_key key v (map snd l) = map snd (filter (fun p => value_eqb (fst p) v) l).
Proof.
  unfold with_key. induction 1 as [|p l Hp _ IH]; simpl; [reflexivity|].
  rewrite Hp, IH. destruct (value_eqb (fst p) v); reflexivity.
Qed.

Lemma comparable_of_kind (b : bool) (keys : list value) :
  Forall (fun k => is_int k = b) keys -> comparable keys = true.
Proof.
  destruct 1 as [|k rest Hk Hrest]; simpl; [reflexivity|].
  apply forallb_forall. intros k' Hin.
  rewrite Forall_forall in Hrest. rewrite Hk, (Hrest k' Hin).
  destruct b; reflexivity.
Qed.

Lemma verify_sorted_cons (a b : record) (rest : list record) (key : string) :
  verify_sorted (a :: b :: rest) key
  = match getitem a key with
    | inl e => inl e
    | inr ka =>
        match getitem b key with
        | inl e => inl e
        | inr kb =>
            match gt ka kb with
            | inl e => inl e
            | inr true => inr false
            | inr false => verify_sorted (b :: rest) key
            end
        end
    end.
Proof. reflexivity. Qed.

Lemma verify_in_order (data : list record) (key : string) :
  in_order key data -> verify_sorted data key = inr true.
Proof.
  induction data as [|a data IH]; [reflexivity|].
  destruct data as [|b rest]; [reflexivity|].
  intros [(ka & kb & Ha & Hb & Hgt) Hrest].
  rewrite verify_sorted_cons, Ha, Hb, Hgt. apply IH, Hrest.
Qed.

Lemma in_order_keyed (key : string) (b : bool) (l : list (value * record)) :
  Sorted key_le l ->
  Forall (fun p => getitem (snd p) key = inr (fst p)) l ->
  Forall (fun p => is_int (fst p) = b) l ->
  in_order key (map snd l).
Proof.
  induction l as [|x l IH]; [intros; exact I|].
  destruct l as [|y l]; [intros; exact I|].
  intros Hs Hg Hk.
  inversion Hs as [|? ? Hs' Hhd]; subst. inversion Hhd as [|? ? Hxy]; subst.
  inversion Hg as [|? ? Hgx Hg']; subst. inversion Hk as [|? ? Hkx Hk']; subst.
  inversion Hg' as [|? ? Hgy _]; subst. inversion Hk' as [|? ? Hky _]; subst.
  split; [|apply IH; assumption].
  exists (fst x), (fst y). split; [exact Hgx|]. split; [exact Hgy|].
  unfold gt. rewrite lt_same_kind by congruence. rewrite Hxy. reflexivity.
Qed.

(** The sort by a key that every record has, with one type throughout. *)
Lemma sorted_by_getitem (data : list record) (key : string) :
  homogeneous key data ->
  exists out,
    manual_sort_dictionaries data key = inr out
    /\ Permutation data out
    /\ in_order key out
    /\ (forall v, with_key key v out = with_key key v data).
Proof.
  intros Hhom.
  assert (Hex : exists b, Forall (fun x => exists v, getitem x key = inr v /\ is_int v = b) data).
  { destruct Hhom as [H|H]; [exists true | exists false];
      (eapply Forall_impl; [|exact H]); intros x [z Hz]; eexists; split; eauto. }
  destruct Hex as [b Hall].
  set (ks := map (fun x => (get x key (VInt 0), x)) data).
  assert (Hkeyed : keyed (fun x => getitem x key) data = inr ks).
  { unfold ks. rewrite <- keyed_total. apply keyed_ext.
    eapply Forall_impl; [|exact Hall].
    intros x (v & Hv & _). cbv beta. rewrite Hv, (get_has_key x key _ v Hv). reflexivity. }
  assert (Hsnd : map snd ks = data)
    by (unfold ks; rewrite map_map; cbn [snd]; apply map_id).
  assert (Hg : Forall (fun p => getitem (snd p) key = inr (fst p)) ks).
  { unfold ks. apply Forall_map. eapply Forall_impl; [|exact Hall].
    intros x (v & Hv & _). cbn [fst snd]. rewrite (get_has_key x key _ v Hv). exact Hv. }
  assert (Hk : Forall (fun p => is_int (fst p) = b) ks).
  { unfold ks. apply Forall_map. eapply Forall_impl; [|exact Hall].
    intros x (v & Hv & Hb). cbn [fst]. rewrite (get_has_key x key _ v Hv). exact Hb. }
  assert (Hcomp : comparable (map fst ks) = true)
    by (apply (comparable_of_kind b), Forall_map; exact Hk).
  pose proof (stable_sort_perm ks) as Hperm.
  assert (Hg' : Forall (fun p => getitem (snd p) key = inr (fst p)) (stable_sort ks))
    by (eapply Permutation_Forall; eassumption).
  assert (Hk' : Forall (fun p => is_int (fst p) = b) (stable_sort ks))
    by (eapply Permutation_Forall; eassumption).
  exists (map snd (stable_sort ks)).
  assert (Hord : in_order key (map snd (stable_sort ks)))
    by (apply (in_order_keyed key b); [apply stable_sort_sorted | exact Hg' | exact Hk']).
  split; [unfold manual_sort_dictionaries, sorted; rewrite Hkeyed, Hcomp; reflexivity|].
  split; [rewrite <- Hsnd at 1; apply Permutation_map, Hperm|].
  split; [exact Hord|].
  intros v. rewrite (with_key_keyed key v _ Hg'), filter_stable_sort.
  rewrite <- (with_key_keyed key v _ Hg), Hsnd. reflexivity.
Qed.

(** X12: sorting by a key that every record has, with integers
    throughout or strings throughout, returns a permutation of the input
    whose keys are in order, in which the records with equal keys keep
    their input order, and which [verify_sorted] accepts. *)
Theorem manual_sort_sorts (data : list record) (key : string) :
  homogeneous key data ->
  exists out,
    manual_sort_dictionaries data key = inr out
    /\ Permutation data out
    /\ in_order key out
    /\ (forall v, with_key key v out = with_key key v data)
    /\ verify_sorted out key = inr true.
Proof.
  intros Hhom.
  destruct (sorted_by_getitem data key Hhom) as (out & Hrun & Hperm & Hord & Hstable).
  exists out. split; [exact Hrun|]. split; [exact Hperm|].
  split; [exact Hord|]. split; [exact Hstable|].
  apply verify_in_order, Hord.
Qed.

Lemma manual_sort_sorts_witness :
  let dave : record := [("name", VStr "dave"); ("salary", VInt 48000)] in
  exists out,
    manual_sort_dictionaries [alice; bob; dave] "salary" = inr out
    /\ out = [bob; dave; alice]
    /\ verify_sorted out "salary" = inr true.
Proof.
  cbv zeta.
  destruct (manual_sort_sorts
              [alice; bob; [("name", VStr "dave"); ("salary", VInt 48000)]] "salary")
    as (out & Hrun & _ & _ & _ & Hverify).
  - left. repeat constructor; eexists; reflexivity.
  - exists out. split; [exact Hrun|]. split; [|exact Hverify].
    vm_compute in Hrun. injection Hrun as <-. reflexivity.
Defined.

(** *** The check *)

(** X13: on records that all hold an integer under the key,
    [verify_sorted] raises nothing and answers whether the keys are in
    non-decreasing order; on a list of at most one record it answers True
    without reading any key; on a longer list whose first record lacks the
    key it raises the KeyError of that key. *)
Theorem verify_sorted_answers_order (data : list record) (key : string) :
  (forall zs,
      Forall2 (fun x z => getitem x key = inr (VInt z)) data zs ->
      exists b, verify_sorted data key = inr b /\ (b = true <-> LocallySorted Z.le zs))
  /\ (List.length data <= 1 -> verify_sorted data key = inr true)
  /\ (forall a b rest,
        data = a :: b :: rest -> ~ has_key key a ->
        verify_sorted data key = inl (KeyError key)).
Proof.
  split; [|split].
  - intros zs H. induction H as [|a z data zs Ha Hrest IH].
    + exists true. split; [reflexivity|]. split; [constructor | reflexivity].
    + destruct Hrest as [|b z' rest zs' Hb Hrest].
      * exists true. split; [reflexivity|]. split; [constructor | reflexivity].
      * rewrite verify_sorted_cons, Ha, Hb. unfold gt. cbn [lt].
        destruct (Z.ltb z' z) eqn:Hlt.
        -- exists false. split; [reflexivity|]. split; [discriminate|].
           intros Hs. inversion Hs; subst. apply Z.ltb_lt in Hlt. lia.
        -- destruct IH as (b0 & Hrun & Hiff). exists b0. split; [exact Hrun|].
           apply Z.ltb_ge in Hlt. rewrite Hiff. split.
           ++ intros Hs. constructor; assumption.
           ++ intros Hs. inversion Hs; subst. assumption.
  - destruct data as [|a [|b rest]]; simpl; [reflexivity | reflexivity | lia].
  - intros a b rest -> Hmiss. rewrite verify_sorted_cons.
    destruct (getitem a key) as [e|v] eqn:Ha.
    + rewrite (getitem_error a key e Ha). reflexivity.
    + exfalso. apply Hmiss. exists v. exact Ha.
Qed.

Lemma verify_sorted_answers_order_witness :
  verify_sorted [bob; alice] "salary" = inr true
  /\ verify_sorted [alice; bob] "salary" = inr false
  /\ verify_sorted [carol] "salary" = inr true
  /\ verify_sorted [carol; bob] "salary" = inl (KeyError "salary").
Proof.
  split; [|split; [|split]].
  - destruct (verify_sorted_answers_order [bob; alice] "salary") as [H _].
    destruct (H [48000; 52000]%Z) as (b & Hrun & Hiff);
      [repeat constructor|].
    rewrite Hrun. f_equal. apply Hiff. repeat constructor. lia.
  - destruct (verify_sorted_answers_order [alice; bob] "salary") as [H _].
    destruct (H [52000; 48000]%Z) as (b & Hrun & Hiff);
      [repeat constructor|].
    rewrite Hrun. f_equal. destruct b; [|reflexivity].
    exfalso. assert (Hs : LocallySorted Z.le [52000; 48000]%Z) by (apply Hiff; reflexivity).
    inversion Hs; subst. lia.
  - destruct (verify_sorted_answers_order [carol] "salary") as (_ & H & _).
    apply H. simpl. lia.
  - destruct (verify_sorted_answers_order [carol; bob] "salary") as (_ & _ & H).
    apply (H carol bob []); [reflexivity|]. intros [v Hv]. discriminate Hv.
Defined.

Lemma verify_reaches_missing (key : string) (l : list (value * record)) :
  Sorted key_le l ->
  Forall (fun p => fst p = get (snd p) key (VInt 0)) l ->
  Forall (fun p => is_int (fst p) = true) l ->
  Exists (fun p => ~ has_key key (snd p)) l ->
  2 <= List.length l ->
  verify_sorted (map snd l) key = inl (KeyError key).
Proof.
  induction l as [|a l IH]; [simpl; lia|].
  destruct l as [|b l']; [simpl; lia|].
  intros Hs Hg Hk Hmiss _.
  inversion Hs as [|? ? Hs' Hhd]; subst. inversion Hhd as [|? ? Hab]; subst.
  inversion Hg as [|? ? Hga Hg']; subst. inversion Hk as [|? ? Hka Hk']; subst.
  inversion Hg' as [|? ? Hgb _]; subst. inversion Hk' as [|? ? Hkb _]; subst.
  cbn [map]. rewrite verify_sorted_cons.
  destruct (getitem (snd a) key) as [e|ka] eqn:Ha;
    [rewrite (getitem_error _ _ _ Ha); reflexivity|].
  destruct (getitem (snd b) key) as [e|kb] eqn:Hb;
    [rewrite (getitem_error _ _ _ Hb); reflexivity|].
  rewrite (get_has_key _ _ (VInt 0) _ Ha) in Hga.
  rewrite (get_has_key _ _ (VInt 0) _ Hb) in Hgb.
  subst ka kb. unfold gt. rewrite lt_same_kind by congruence.
  unfold key_le in Hab. rewrite Hab.
  apply (IH Hs' Hg' Hk').
  - inversion Hmiss as [? ? Hna|? ? Hrest]; subst; [|exact Hrest].
    exfalso. apply Hna. eexists. exact Ha.
  - destruct l' as [|c l'']; [|simpl; lia].
    exfalso. inversion Hmiss as [? ? Hna|? ? Hrest]; subst.
    + apply Hna. eexists. exact Ha.
    + inversion Hrest as [? ? Hnb|? ? Hnil]; subst; [|inversion Hnil].
      apply Hnb. eexists. exact Hb.
Qed.

(** X14: when some record lacks the key and the other keys are integers,
    the two implementations with a default sort the list, the missing
    key counting as 0, but [verify_sorted], which reads the key without a
    default, raises a KeyError on their result as soon as the list has two
    records. *)
Theorem check_raises_after_defaulted_sort (data : list record) (key : string) :
  2 <= List.length data ->
  Exists (fun x => ~ has_key key x) data ->
  Forall (fun x => has_key key x -> int_key key x) data ->
  exists out,
    optimized_sort_dictionaries data key = inr out
    /\ ai_suggested_sort_dictionaries data key = inr out
    /\ Permutation data out
    /\ verify_sorted out key = inl (KeyError key).
Proof.
  intros Hlen Hmiss Hint. rewrite ai_suggested_is_optimized.
  set (ks := map (fun x => (get x key (VInt 0), x)) data).
  assert (Hsnd : map snd ks = data)
    by (unfold ks; rewrite map_map; cbn [snd]; apply map_id).
  assert (Hg : Forall (fun p => fst p = get (snd p) key (VInt 0)) ks)
    by (unfold ks; apply Forall_map, Forall_forall; reflexivity).
  assert (Hk : Forall (fun p => is_int (fst p) = true) ks).
  { unfold ks. apply Forall_map. eapply Forall_impl; [|exact Hint].
    intros x Hx. cbn [fst]. unfold get.
    destruct (getitem x key) as [e|v] eqn:Hv; [reflexivity|].
    destruct Hx as [z Hz]; [exists v; exact Hv|].
    rewrite Hv in Hz. injection Hz as ->. reflexivity. }
  assert (Hm : Exists (fun p => ~ has_key key (snd p)) ks)
    by (unfold ks; apply Exists_map; exact Hmiss).
  assert (Hcomp : comparable (map fst ks) = true)
    by (apply (comparable_of_kind true), Forall_map; exact Hk).
  pose proof (stable_sort_perm ks) as Hperm.
  exists (map snd (stable_sort ks)).
  assert (Hrun : optimized_sort_dictionaries data key = inr (map snd (stable_sort ks)))
    by (unfold optimized_sort_dictionaries, sorted; rewrite keyed_total;
        fold ks; rewrite Hcomp; reflexivity).
  split; [exact Hrun|]. split; [exact Hrun|].
  split; [rewrite <- Hsnd at 1; apply Permutation_map, Hperm|].
  apply verify_reaches_missing.
  - apply stable_sort_sorted.
  - eapply Permutation_Forall; eassumption.
  - eapply Permutation_Forall; eassumption.
  - apply Exists_exists in Hm. destruct Hm as (p & Hp & Hnp).
    apply Exists_exists. exists p. split; [|exact Hnp].
    eapply Permutation_in; eassumption.
  - rewrite <- (Permutation_length Hperm). unfold ks. rewrite length_map. exact Hlen.
Qed.

Lemma check_raises_after_defaulted_sort_witness :
  optimized_sort_dictionaries [alice; carol; bob] "salary" = inr [carol; bob; alice]
  /\ verify_sorted [carol; bob; alice] "salary" = inl (KeyError "salary").
Proof.
  destruct (check_raises_after_defaulted_sort [alice; carol; bob] "salary")
    as (out & Hrun & _ & _ & Hverify).
  - simpl. lia.
  - apply Exists_cons_tl, Exists_cons_hd. intros [v Hv]. discriminate Hv.
  - repeat constructor; intros [v Hv]; try discriminate Hv; eexists; reflexivity.
  - assert (Hout : out = [carol; bob; alice])
      by (vm_compute in Hrun; injection Hrun as <-; reflexivity).
    subst out. split; [exact Hrun | exact Hverify].
Defined.

(** *** The sample data *)

Lemma manual_is_optimized (data : list record) (key : string) :
  Forall (has_key key) data ->
  manual_sort_dictionaries data key = optimized_sort_dictionaries data key.
Proof.
  intros Hall. unfold manual_sort_dictionaries, optimized_sort_dictionaries, sorted.
  rewrite (keyed_ext (fun x => getitem x key) (fun x => inr (get x key (VInt 0))) data);
    [reflexivity|].
  eapply Forall_impl; [|exact Hall].
  intros x [v Hv]. cbv beta. rewrite Hv, (get_has_key x key (VInt 0) v Hv). reflexivity.
Qed.

Section SampleFacts.

Context {R : Type} {rnd : Random R}.

Lemma sample_record_shape (i : nat) (r : R) :
  exists age salary department,
    fst (sample_record i r)
    = [ ("name", VStr ("user_" ++ Py.str_of_nat i)); ("age", VInt age);
        ("salary", VInt salary); ("department", VStr department) ].
Proof.
  unfold sample_record.
  destruct (randint 18 65 r) as [age r1].
  destruct (randint 30000 150000 r1) as [salary r2].
  destruct (choice _ r2) as [department r3].
  exists age, salary, department. reflexivity.
Qed.

Lemma sample_records_nth (start count : nat) (r : R) :
  List.length (fst (sample_records start count r)) = count
  /\ forall i x,
       nth_error (fst (sample_records start count r)) i = Some x ->
       sample_shape x
       /\ getitem x "name" = inr (VStr ("user_" ++ Py.str_of_nat (start + i))).
Proof.
  revert start r; induction count as [|count IH]; intros start r.
  - split; [reflexivity|]. intros [|i] x H; discriminate H.
  - cbn [sample_records].
    destruct (sample_record_shape start r) as (age & salary & dept & Hx).
    destruct (sample_record start r) as [x0 r1]. cbn [fst] in Hx.
    destruct (IH (S start) r1) as [Hlen Hnth].
    destruct (sample_records (S start) count r1) as [rest r2]. cbn [fst] in *.
    split; [simpl; rewrite Hlen; reflexivity|].
    intros [|i] x H.
    + injection H as <-. rewrite Hx. rewrite Nat.add_0_r.
      split; [|reflexivity]. eexists _, _, _, _. reflexivity.
    + destruct (Hnth i x H) as [Hshape Hname]. split; [exact Hshape|].
      rewrite Hname. replace (start + S i) with (S start + i) by lia. reflexivity.
Qed.

Lemma sample_shape_homogeneous (key : string) (data : list record) :
  In key ["name"; "age"; "salary"; "department"] ->
  Forall sample_shape data -> homogeneous key data.
Proof.
  intros Hkey Hall. simpl in Hkey.
  destruct Hkey as [<-|[<-|[<-|[<-|[]]]]]; [right | left | left | right];
    (eapply Forall_impl; [|exact Hall]);
    intros x (name & age & salary & dept & ->); eexists; reflexivity.
Qed.

(** X15: [generate_sample_data(n)] returns [n] records (none for a
    negative [n]), the record at index [i] named user_i, and the data can
    be sorted by each of its four keys whatever the random choices: the
    three implementations return the same permutation of the data, and
    [verify_sorted] accepts it. *)
Theorem sample_data_sorts_by_every_key (n : Z) (r : R) (key : string) :
  In key ["name"; "age"; "salary"; "department"] ->
  let data := fst (generate_sample_data n r) in
  List.length data = Z.to_nat n
  /\ (forall i x,
        nth_error data i = Some x ->
        getitem x "name" = inr (VStr ("user_" ++ Py.str_of_nat i)))
  /\ exists out,
       manual_sort_dictionaries data key = inr out
       /\ ai_suggested_sort_dictionaries data key = inr out
       /\ optimized_sort_dictionaries data key = inr out
       /\ Permutation data out
       /\ verify_sorted out key = inr true.
Proof.
  intros Hkey data. unfold generate_sample_data in data.
  destruct (sample_records_nth 0 (Z.to_nat n) r) as [Hlen Hnth]. fold data in Hlen, Hnth.
  split; [exact Hlen|]. split; [intros i x H; apply (Hnth i x H)|].
  assert (Hshape : Forall sample_shape data).
  { apply Forall_forall. intros x Hin.
    destruct (In_nth_error _ _ Hin) as [i Hi]. apply (Hnth i x Hi). }
  pose proof (sample_shape_homogeneous key data Hkey Hshape) as Hhom.
  destruct (sorted_by_getitem data key Hhom) as (out & Hrun & Hperm & Hord & _).
  pose proof (verify_in_order out key Hord) as Hverify.
  assert (Hhas : Forall (has_key key) data).
  { destruct Hhom as [H|H]; (eapply Forall_impl; [|exact H]);
      intros x [v Hv]; eexists; exact Hv. }
  exists out. split; [exact Hrun|].
  rewrite ai_suggested_is_optimized, <- (manual_is_optimized data key Hhas).
  auto.
Qed.

End SampleFacts.

Lemma sample_data_sorts_by_every_key_witness :
  let data := fst (generate_sample_data (R:=nat) 3 0) in
  List.length data = 3
  /\ exists out,
       manual_sort_dictionaries data "salary" = inr out
       /\ verify_sorted out "salary" = inr true.
Proof.
  cbv zeta.
  destruct (sample_data_sorts_by_every_key (rnd:=counter) 3 0 "salary")
    as (Hlen & _ & out & Hrun & _ & _ & _ & Hverify).
  - simpl. auto.
  - split; [exact Hlen|]. exists out. split; [exact Hrun | exact Hverify].
Defined.

End CodeCompletionFacts.

(** ** Runs on the stub *)

Example repr_ex :
  map Py.repr ["status"; "it's"; "a" ++ Py.dq ++ "b"; "it's " ++ Py.dq ++ "x" ++ Py.dq]
  = [ "'status'"; Py.dq ++ "it's" ++ Py.dq; "'a" ++ Py.dq ++ "b'";
      "'it" ++ String (ascii_of_nat 92) "'s " ++ Py.dq ++ "x" ++ Py.dq ++ "'" ]
  /\ str_exn (KeyError "status") = "'status'".
Proof. split; reflexivity. Qed.

Example str_of_nat_ex :
  map Py.str_of_nat [0; 7; 10; 409; 1000] = ["0"; "7"; "10"; "409"; "1000"].
Proof. reflexivity. Qed.

Example format_ex :
  map (fun p => match true_div (fst p) (snd p) with
                | inr x => Float.format_1f (Float.mul x (Float.of_Z 100))
                | inl _ => "raise"
                end)
      [(2, 4); (0, 4); (4, 4); (1, 3); (2, 3); (1, 8); (3, 8); (1, 16); (1, 2000); (5, 0)]
  = ["50.0"; "0.0"; "100.0"; "33.3"; "66.7"; "12.5"; "37.5"; "6.2"; "0.1"; "raise"].
Proof. vm_compute. reflexivity. Qed.

(** The four scenarios against a page that behaves: all pass. *)
Example stub_run_ex :
  let st := snd (test_login_scenarios (Stub.fresh Stub.login_page)) in
  (map r_status (results st), map r_actual (results st), stdout st,
   List.length (trace st), map r_timestamp (results st))
  = (["PASS"; "PASS"; "PASS"; "PASS"],
     ["success"; "failure"; "failure"; "failure"],
     ["Total Tests: 4"; "Passed: 4"; "Failed: 0"; "Errors: 0"; "Success Rate: 100.0%"],
     88, ["t+102"; "t+204"; "t+306"; "t+408"]).
Proof. vm_compute. reflexivity. Qed.

(** The same scenarios against a page whose controls are reachable by
    name only: every resolution goes through the fifteen candidates and
    the two direct lookups. *)
Example stub_bare_ex :
  let st := snd (test_login_scenarios (Stub.fresh Stub.bare_page)) in
  (map r_status (results st), List.length (trace st), stdout st)
  = (["PASS"; "PASS"; "PASS"; "PASS"], 4 * (1 + 3 * 17 + 5 + 1 + 2),
     ["Total Tests: 4"; "Passed: 4"; "Failed: 0"; "Errors: 0"; "Success Rate: 100.0%"]).
Proof. vm_compute. reflexivity. Qed.
